(** * Superstore ETL pipeline (src/etl/main.py): a shallow embedding

    The pipeline reads a flat sales table, derives analytic columns
    ([transform_data]), builds five dimension tables
    ([create_dimensions]), resolves the fact table's keys
    ([load_face_sales]) and writes everything with [insert_data].

    Conventions of the embedding.
    - A pandas DataFrame is a list of row records.  The columns the
      script reads by name are record fields; every other column of the
      CSV file (the optional location columns among them) sits in
      [others], named by the frame's [columns].
    - A field of an identifier, text or location column is a [cell]: a
      string, an integer, or pandas' missing marker NaN.
    - The measure columns (sales, profit, discount, shipping cost) are
      binary64 floats, the kernel's primitive floats.
    - A date is a day number (days since 1970-01-01), as in
      datetime64[D]; NaT is [None].
    - The database is a finite map from table names to the rows
      committed so far; the engine decides which batches it accepts. *)

From stdpp Require Import base list strings gmap pretty sorting.
From Stdlib Require Import ZArith Floats Lia Ascii.

Local Open Scope Z_scope.

(** ** Text helpers (Python [str] methods on ASCII text) *)

Definition ascii_upper (c : ascii) : ascii :=
  let n := Ascii.N_of_ascii c in
  if ((97 <=? n) && (n <=? 122))%N then Ascii.ascii_of_N (n - 32) else c.

Definition ascii_lower (c : ascii) : ascii :=
  let n := Ascii.N_of_ascii c in
  if ((65 <=? n) && (n <=? 90))%N then Ascii.ascii_of_N (n + 32) else c.

Fixpoint str_map (f : ascii → ascii) (s : string) : string :=
  match s with
  | EmptyString => EmptyString
  | String c s' => String (f c) (str_map f s')
  end.

(** [s.upper()] and [s.lower()]. *)
Definition upper : string → string := str_map ascii_upper.
Definition lower : string → string := str_map ascii_lower.

(** [s.replace(old, new)] for one-character [old] and [new]. *)
Definition replace_char (old new : ascii) : string → string :=
  str_map (λ c, if Ascii.eqb c old then new else c).

(** [s[0:stop]]. *)
Definition str_slice (stop : nat) (s : string) : string :=
  String.substring 0 stop s.

(** [','.join(l)]. *)
Fixpoint join (sep : string) (l : list string) : string :=
  match l with
  | [] => ""
  | [s] => s
  | s :: l' => s +:+ sep +:+ join sep l'
  end.

(** ** Cells *)

Inductive cell :=
  | CStr (s : string)
  | CInt (z : Z)
  | CNaN.

#[global] Instance cell_eq_dec : EqDecision cell.
Proof. solve_decision. Defined.

Definition is_str (c : cell) : bool :=
  match c with CStr _ => true | _ => false end.

Definition cell_isnull (c : cell) : bool :=
  match c with CNaN => true | _ => false end.

(** The element-wise effect of [Series.astype(str)]: Python's [str]. *)
Definition astype_str (c : cell) : string :=
  match c with
  | CStr s => s
  | CInt z => pretty z
  | CNaN => "nan"
  end.

(** [select_dtypes(include=['object'])] keeps the columns of dtype
    object; a column read from a CSV file has that dtype exactly when it
    holds text. *)
Definition is_object (col : list cell) : bool := existsb is_str col.

(** [df[col].astype(str).str.slice(0, 255)] on one cell. *)
Definition truncate_cell (c : cell) : cell := CStr (str_slice 255 (astype_str c)).

(** ** Floats *)

Definition f_zero : float := 0%float.
Definition f_hundred : float := 100%float.
(** The literal [0.2]: the binary64 value nearest to one fifth. *)
Definition f_0_2 : float := 0x1.999999999999ap-3%float.

Definition is_inf (x : float) : bool :=
  PrimFloat.eqb x infinity || PrimFloat.eqb x neg_infinity.

Fixpoint insert_sorted (x : float) (l : list float) : list float :=
  match l with
  | [] => [x]
  | y :: l' => if PrimFloat.leb x y then x :: l else y :: insert_sorted x l'
  end.

Definition sort_floats (l : list float) : list float := foldr insert_sorted [] l.

Definition dropna (l : list float) : list float :=
  List.filter (λ x, negb (PrimFloat.is_nan x)) l.

(** numpy's [_lerp(a, b, t)]. *)
Definition lerp (a b t : float) : float :=
  if PrimFloat.leb 0.5%float t
  then PrimFloat.sub b (PrimFloat.mul (PrimFloat.sub b a) (PrimFloat.sub 1%float t))
  else PrimFloat.add a (PrimFloat.mul (PrimFloat.sub b a) t).

(** [Series.quantile(0.75)]: missing values are skipped, the rest is
    sorted and the value at the virtual index [(n-1) * 0.75] is linearly
    interpolated between its two neighbours.  An empty column gives NaN. *)
Definition quantile_075 (values : list float) : float :=
  let v := sort_floats (dropna values) in
  match v with
  | [] => nan
  | _ =>
    let n := length v in
    let k := (3 * (n - 1))%nat in
    let previous := (k / 4)%nat in
    let next := Nat.min (previous + 1) (n - 1) in
    let gamma :=
      match (k mod 4)%nat with
      | 0%nat => 0%float
      | 1%nat => 0.25%float
      | 2%nat => 0.5%float
      | _ => 0.75%float
      end in
    lerp (nth previous v nan) (nth next v nan) gamma
  end.

(** ** Calendar *)

Record civil := { c_year : Z; c_month : Z; c_day : Z }.

(** The calendar arithmetic works in 400-year eras of 146097 days, with
    years that start on 1 March, so that the leap day comes last. *)

(** The year of the era (0..399) that holds day [doe] of the era. *)
Definition year_of_era (doe : Z) : Z :=
  (doe - doe `div` 1460 + doe `div` 36524 - doe `div` 146096) `div` 365.

(** The days of the era before its year [yoe]. *)
Definition days_before_year (yoe : Z) : Z :=
  365 * yoe + yoe `div` 4 - yoe `div` 100.

(** The month (0 is March, 11 is February) that holds day [doy] of the
    year, and the days of the year before month [mp]. *)
Definition month_index (doy : Z) : Z := (5 * doy + 2) `div` 153.
Definition days_before_month (mp : Z) : Z := (153 * mp + 2) `div` 5.

(** The date of day [doe] of era [era]. *)
Definition civil_of_era (era doe : Z) : civil :=
  let yoe := year_of_era doe in
  let doy := doe - days_before_year yoe in
  let mp := month_index doy in
  let d := doy - days_before_month mp + 1 in
  let m := if mp <? 10 then mp + 3 else mp - 9 in
  {| c_year := yoe + era * 400 + (if m <=? 2 then 1 else 0);
     c_month := m;
     c_day := d |}.

(** Day number to proleptic Gregorian (year, month, day). *)
Definition civil_from_days (z : Z) : civil :=
  let z := z + 719468 in
  let era := z `div` 146097 in
  civil_of_era era (z - era * 146097).

(** The digits YYYYMMDD of a date, read as one integer. *)
Definition ymd (c : civil) : Z := c_year c * 10000 + c_month c * 100 + c_day c.

(** [int(ts.strftime('%Y%m%d'))]. *)
Definition strftime_Ymd (z : Z) : Z := ymd (civil_from_days z).

(** [ts.dayofweek]: Monday is 0; 1970-01-01 was a Thursday. *)
Definition dayofweek (z : Z) : Z := (z + 3) `mod` 7.

Definition quarter (z : Z) : Z := (c_month (civil_from_days z) - 1) `div` 3 + 1.

Definition month_name (z : Z) : string :=
  match c_month (civil_from_days z) with
  | 1 => "January" | 2 => "February" | 3 => "March" | 4 => "April"
  | 5 => "May" | 6 => "June" | 7 => "July" | 8 => "August"
  | 9 => "September" | 10 => "October" | 11 => "November" | _ => "December"
  end.

Definition day_name (z : Z) : string :=
  match dayofweek z with
  | 0 => "Monday" | 1 => "Tuesday" | 2 => "Wednesday" | 3 => "Thursday"
  | 4 => "Friday" | 5 => "Saturday" | _ => "Sunday"
  end.

(** The days a datetime64[ns] Timestamp can hold: 1677-09-22 to
    2262-04-11. *)
Definition timestamp_min_day : Z := -106751.
Definition timestamp_max_day : Z := 106751.

(** [pd.to_datetime(col, errors='coerce')] on one field.  The field of
    the file is [Some d] when its text denotes the calendar day [d], and
    [None] when it is empty or does not parse; a day a Timestamp cannot
    hold is coerced to NaT. *)
Definition to_datetime (field : option Z) : option Z :=
  match field with
  | Some d =>
    if (timestamp_min_day <=? d) && (d <=? timestamp_max_day) then Some d else None
  | None => None
  end.

(** [pd.date_range(start, end)] with the default daily frequency. *)
Definition date_range (start stop : Z) : list Z :=
  map (λ k : nat, start + Z.of_nat k) (seq 0 (Z.to_nat (stop - start + 1))).

(** [Series.min()] and [Series.max()] of a datetime column, NaT skipped;
    [None] (NaT) when no date is present. *)
Definition dates_present (col : list (option Z)) : list Z := omap id col.

Definition date_min (col : list (option Z)) : option Z :=
  match dates_present col with
  | [] => None
  | d :: ds => Some (foldr Z.min d ds)
  end.

Definition date_max (col : list (option Z)) : option Z :=
  match dates_present col with
  | [] => None
  | d :: ds => Some (foldr Z.max d ds)
  end.

(** ** Frames *)

(** One record of the file, under the normalised column names.  The
    fields are the columns the script reads by name; [others] holds the
    remaining columns of the file in the order of the frame's
    [columns]. *)
Record SourceRow := {
  row_id : cell;
  order_id : cell;
  order_date : option Z;
  ship_date : option Z;
  ship_mode : cell;
  customer_id : cell;
  customer_name : cell;
  segment : cell;
  product_id : cell;
  product_name : cell;
  category : cell;
  sub_category : cell;
  sales : float;
  quantity : cell;
  discount : float;
  profit : float;
  shipping_cost : float;
  others : list cell
}.

(** A record after [transform_data]: the source columns, as rewritten,
    and the derived ones. *)
Record FeatureRow := {
  src : SourceRow;
  shipping_days : Z;
  profit_margin : float;
  is_profitable : Z;
  discount_category : cell;
  order_value_segment : cell;
  date_key : Z
}.

Record Frame (R : Type) := {
  columns : list string;
  rows : list R
}.
Arguments columns {R} _.
Arguments rows {R} _.

(** ** transform_data *)

(** [df.columns.str.lower().str.replace('.', '_').str.replace(' ', '_')
    .str.replace('-', '_')] on one name. *)
Definition normalize_column (c : string) : string :=
  replace_char "-" "_" (replace_char " " "_" (replace_char "." "_" (lower c))).

(** [df['customer_id'].astype(str).str.upper()], and the same for
    [product_id]. *)
Definition normalize_ids (r : SourceRow) : SourceRow :=
  {| row_id := row_id r; order_id := order_id r;
     order_date := order_date r; ship_date := ship_date r;
     ship_mode := ship_mode r;
     customer_id := CStr (upper (astype_str (customer_id r)));
     customer_name := customer_name r; segment := segment r;
     product_id := CStr (upper (astype_str (product_id r)));
     product_name := product_name r; category := category r;
     sub_category := sub_category r;
     sales := sales r; quantity := quantity r; discount := discount r;
     profit := profit r; shipping_cost := shipping_cost r;
     others := others r |}.

(** The two [pd.to_datetime(..., errors='coerce')] assignments. *)
Definition convert_dates (r : SourceRow) : SourceRow :=
  {| row_id := row_id r; order_id := order_id r;
     order_date := to_datetime (order_date r);
     ship_date := to_datetime (ship_date r);
     ship_mode := ship_mode r;
     customer_id := customer_id r;
     customer_name := customer_name r; segment := segment r;
     product_id := product_id r;
     product_name := product_name r; category := category r;
     sub_category := sub_category r;
     sales := sales r; quantity := quantity r; discount := discount r;
     profit := profit r; shipping_cost := shipping_cost r;
     others := others r |}.

(** [(ship_date - order_date).dt.days], then [fillna(0)]. *)
Definition shipping_days_of (r : SourceRow) : Z :=
  match ship_date r, order_date r with
  | Some s, Some o => s - o
  | _, _ => 0
  end.

(** [(profit / sales) * 100], then [replace([inf, -inf], 0).fillna(0)]. *)
Definition profit_margin_of (r : SourceRow) : float :=
  let pm := PrimFloat.mul (PrimFloat.div (profit r) (sales r)) f_hundred in
  if is_inf pm then f_zero
  else if PrimFloat.is_nan pm then f_zero
  else pm.

(** [np.where(df['profit'] > 0, 1, 0)]. *)
Definition is_profitable_of (r : SourceRow) : Z :=
  if PrimFloat.ltb f_zero (profit r) then 1 else 0.

Definition categorize_discount (discount : float) : string :=
  if PrimFloat.eqb discount f_zero then "No Discount"
  else if PrimFloat.ltb discount f_0_2 then "Low"
  else "High".

(** [df['sales'].quantile(0.75)]. *)
Definition sales_threshold (df : list SourceRow) : float :=
  quantile_075 (map sales df).

(** [np.where(df['sales'] > sales_threshold, 'High Value', 'Standard Value')]
    on one row. *)
Definition order_value_segment_of (threshold : float) (r : SourceRow) : string :=
  if PrimFloat.ltb threshold (sales r) then "High Value" else "Standard Value".

(** [df['order_date'].dt.strftime('%Y%m%d').fillna(0).astype(np.int64)]. *)
Definition date_key_of (r : SourceRow) : Z :=
  match order_date r with
  | Some d => strftime_Ymd d
  | None => 0
  end.

(** Step 3 of [transform_data]: the derived columns.  The threshold is
    computed from the whole sales column before any row is classified. *)
Definition feature_engineering (df : list SourceRow) : list FeatureRow :=
  let threshold := sales_threshold df in
  map (λ r,
    {| src := r;
       shipping_days := shipping_days_of r;
       profit_margin := profit_margin_of r;
       is_profitable := is_profitable_of r;
       discount_category := CStr (categorize_discount (discount r));
       order_value_segment := CStr (order_value_segment_of threshold r);
       date_key := date_key_of r |}) df.

Definition truncate_if (object : bool) (c : cell) : cell :=
  if object then truncate_cell c else c.

(** The [j]-th of the other columns. *)
Definition other_column (j : nat) (df : list FeatureRow) : list cell :=
  map (λ r, nth j (others (src r)) CNaN) df.

(** The columns of a transformed frame that hold cells, in a fixed
    order: the named ones, then the others. *)
Definition named_cell_columns : list (FeatureRow → cell) :=
  [ row_id ∘ src; order_id ∘ src; ship_mode ∘ src; customer_id ∘ src;
    customer_name ∘ src; segment ∘ src; product_id ∘ src;
    product_name ∘ src; category ∘ src; sub_category ∘ src;
    quantity ∘ src; discount_category; order_value_segment ].

Definition cell_columns (df : Frame FeatureRow) : list (list cell) :=
  map (λ f, map f (rows df)) named_cell_columns
  ++ map (λ j, other_column j (rows df)) (seq 0 (length (columns df))).

(** [df.select_dtypes(include=['object'])]. *)
Definition object_columns (df : Frame FeatureRow) : list (list cell) :=
  List.filter is_object (cell_columns df).

(** The last step of [transform_data]:
    [for col in str_cols: df[col] = df[col].astype(str).str.slice(0, 255)],
    where [str_cols] are the columns of dtype object.  [ncols] is the
    number of other columns; every row has one field in each. *)
Definition truncate_strings (ncols : nat) (df : list FeatureRow) : list FeatureRow :=
  let object (f : FeatureRow → cell) := is_object (map f df) in
  let o_row_id := object (row_id ∘ src) in
  let o_order_id := object (order_id ∘ src) in
  let o_ship_mode := object (ship_mode ∘ src) in
  let o_customer_id := object (customer_id ∘ src) in
  let o_customer_name := object (customer_name ∘ src) in
  let o_segment := object (segment ∘ src) in
  let o_product_id := object (product_id ∘ src) in
  let o_product_name := object (product_name ∘ src) in
  let o_category := object (category ∘ src) in
  let o_sub_category := object (sub_category ∘ src) in
  let o_quantity := object (quantity ∘ src) in
  let o_discount_category := object discount_category in
  let o_order_value_segment := object order_value_segment in
  map (λ r,
    let s := src r in
    {| src :=
         {| row_id := truncate_if o_row_id (row_id s);
            order_id := truncate_if o_order_id (order_id s);
            order_date := order_date s; ship_date := ship_date s;
            ship_mode := truncate_if o_ship_mode (ship_mode s);
            customer_id := truncate_if o_customer_id (customer_id s);
            customer_name := truncate_if o_customer_name (customer_name s);
            segment := truncate_if o_segment (segment s);
            product_id := truncate_if o_product_id (product_id s);
            product_name := truncate_if o_product_name (product_name s);
            category := truncate_if o_category (category s);
            sub_category := truncate_if o_sub_category (sub_category s);
            sales := sales s;
            quantity := truncate_if o_quantity (quantity s);
            discount := discount s; profit := profit s;
            shipping_cost := shipping_cost s;
            others :=
              map (λ j, truncate_if (is_object (other_column j df))
                          (nth j (others s) CNaN))
                  (seq 0 ncols) |};
       shipping_days := shipping_days r;
       profit_margin := profit_margin r;
       is_profitable := is_profitable r;
       discount_category := truncate_if o_discount_category (discount_category r);
       order_value_segment := truncate_if o_order_value_segment (order_value_segment r);
       date_key := date_key r |}) df.

Definition transform_data (df : Frame SourceRow) : Frame FeatureRow :=
  {| columns := map normalize_column (columns df);
     rows :=
       truncate_strings (length (columns df))
         (feature_engineering (map convert_dates (map normalize_ids (rows df)))) |}.

(** ** Tables, the store and the connection *)

(** A field of a table that is about to be written. *)
Inductive value :=
  | VStr (s : string)
  | VInt (z : Z)
  | VFloat (f : float)
  | VDate (d : Z)
  | VBool (b : bool)
  | VNone.

Definition value_of_cell (c : cell) : value :=
  match c with
  | CStr s => VStr s
  | CInt z => VInt z
  | CNaN => VFloat nan
  end.

Definition value_of_option {A} (f : A → value) (o : option A) : value :=
  match o with
  | Some a => f a
  | None => VNone
  end.

(** [pd.notnull] on one field. *)
Definition notnull (v : value) : bool :=
  match v with
  | VNone => false
  | VFloat f => negb (PrimFloat.is_nan f)
  | _ => true
  end.

(** A DataFrame handed to [insert_data]: column names and rows. *)
Record Table := {
  t_columns : list string;
  t_data : list (list value)
}.

(** A parameter row of the INSERT statement; [None] is SQL NULL. *)
Definition sql_row := list (option value).

(** [df.where(pd.notnull(df), None).values.tolist()] on one row. *)
Definition to_sql_row (r : list value) : sql_row :=
  map (λ v, if notnull v then Some v else None) r.

(** The committed rows of every table of the database. *)
Abbreviation store := (gmap string (list sql_row)).

(** What the script does to the connection, and how the process ends. *)
Inductive event :=
  | Executemany (sql : string) (chunk : list sql_row)
  | ExecutemanyRaised (sql : string) (chunk : list sql_row)
  | Commit
  | Close
  | InitSchema.

Record World := {
  db : store;
  trace : list event
}.

(** The engine: whether the store takes a batch into a table, given the
    rows the table already holds (primary keys, column types and sizes
    are the store's business). *)
Record Engine := {
  accepts : string → list sql_row → list sql_row → bool
}.

Inductive exn :=
  | ValueError
  | AssertionError
  | IndexError.

(** How a step can stop the run: [sys.exit(code)], or an exception
    that nothing catches. *)
Inductive failure :=
  | SystemExit (code : Z)
  | Uncaught (e : exn).

Inductive result (A : Type) :=
  | Ok (a : A)
  | Fail (e : failure).
Arguments Ok {A} _.
Arguments Fail {A} _.

(** Steps that act on the world and may stop the run. *)
Definition M (A : Type) : Type := World → World * result A.

#[global] Instance M_ret : MRet M := λ A a w, (w, Ok a).
#[global] Instance M_bind : MBind M := λ A B f m w,
  match m w with
  | (w', Ok a) => f a w'
  | (w', Fail e) => (w', Fail e)
  end.

Definition raise {A} (e : exn) : M A := λ w, (w, Fail (Uncaught e)).

(** [assert b]. *)
Definition py_assert (b : bool) : M () :=
  if b then mret () else raise AssertionError.

Definition emit (evs : list event) (w : World) : World :=
  {| db := db w; trace := trace w ++ evs |}.

(** ** insert_data *)

Definition insert_sql (table_name : string) (cols : list string) : string :=
  "INSERT INTO " +:+ table_name +:+ " (" +:+ join "," cols +:+ ") VALUES ("
  +:+ join "," (map (λ _, "?") cols) +:+ ")".

(** [range(0, total, step)] for a positive [step]. *)
Definition py_range (total step : nat) : list nat :=
  map (λ k, k * step)%nat (seq 0 ((total + step - 1) / step)%nat).

(** The body of the [for] loop, over the remaining start indices.  A
    batch the store refuses raises inside [executemany]; the loop stops
    there.  The flag tells whether the loop ran to its end. *)
Fixpoint insert_chunks (engine : Engine) (sql table_name : string)
    (data : list sql_row) (chunksize : nat) (starts : list nat)
    (w : World) : World * bool :=
  match starts with
  | [] => (w, true)
  | i :: starts' =>
    let chunk := take chunksize (drop i data) in
    match db w !! table_name with
    | Some held =>
      if accepts engine table_name held chunk then
        insert_chunks engine sql table_name data chunksize starts'
          {| db := <[table_name := held ++ chunk]> (db w);
             trace := trace w ++ [Executemany sql chunk; Commit] |}
      else (emit [ExecutemanyRaised sql chunk] w, false)
    | None => (emit [ExecutemanyRaised sql chunk] w, false)
    end
  end.

(** [insert_data(engine, df, table_name, chunksize)].  A failure inside
    the [try] is caught, reported and turned into [sys.exit(1)]; the
    [finally] closes the connection on both paths. *)
Definition insert_data (engine : Engine) (df : Table) (table_name : string)
    (chunksize : nat) : M () := λ w,
  let sql := insert_sql table_name (t_columns df) in
  let data := map to_sql_row (t_data df) in
  let total := length data in
  let '(w', completed) :=
    if decide (chunksize = 0%nat) then (w, false)
    else insert_chunks engine sql table_name data chunksize
           (py_range total chunksize) w in
  if completed then (emit [Close] w', Ok ())
  else (emit [Close] w', Fail (SystemExit 1)).

(** ** Duplicates and joins *)

(** [drop_duplicates(subset=key)] with the default [keep='first']: a
    row is dropped when its key has been seen before. *)
Fixpoint drop_duplicates_from {A K : Type} `{EqDecision K}
    (key : A → K) (seen : list K) (l : list A) : list A :=
  match l with
  | [] => []
  | x :: l' =>
    if bool_decide (key x ∈ seen) then drop_duplicates_from key seen l'
    else x :: drop_duplicates_from key (key x :: seen) l'
  end.

Definition drop_duplicates_by {A K : Type} `{EqDecision K}
    (key : A → K) (l : list A) : list A :=
  drop_duplicates_from key [] l.

(** [drop_duplicates()] on all columns. *)
Definition drop_duplicates {A : Type} `{EqDecision A} (l : list A) : list A :=
  drop_duplicates_by id l.

(** [Series.is_unique]. *)
Fixpoint is_unique {K : Type} `{EqDecision K} (l : list K) : bool :=
  match l with
  | [] => true
  | x :: l' => negb (bool_decide (x ∈ l')) && is_unique l'
  end.

(** [left.merge(right, left_on=.., right_on=.., how='left')]: every left
    row, in order, once per matching right row, or once with an absent
    right side when nothing matches. *)
Definition merge_left {L R K : Type} `{EqDecision K}
    (left_on : L → K) (right_on : R → K)
    (left : list L) (right : list R) : list (L * option R) :=
  flat_map (λ l,
    match List.filter (λ r, bool_decide (right_on r = left_on l)) right with
    | [] => [(l, None)]
    | matches => map (λ r, (l, Some r)) matches
    end) left.

(** ** The dimension tables *)

Module Dim_Date.
Record row := {
  DateKey : Z;
  Date : option Z;
  Year : option Z;
  Quarter : option Z;
  Month : option Z;
  MonthName : option string;
  Day : option Z;
  Weekday : option string;
  IsWeekend : option bool
}.

Definition names : list string :=
  ["DateKey"; "Date"; "Year"; "Quarter"; "Month"; "MonthName"; "Day";
   "Weekday"; "IsWeekend"].

Definition values (r : row) : list value :=
  [ VInt (DateKey r); value_of_option VDate (Date r);
    value_of_option VInt (Year r); value_of_option VInt (Quarter r);
    value_of_option VInt (Month r); value_of_option VStr (MonthName r);
    value_of_option VInt (Day r); value_of_option VStr (Weekday r);
    value_of_option VBool (IsWeekend r) ].

Definition table (l : list row) : Table :=
  {| t_columns := names; t_data := map values l |}.
End Dim_Date.

Module Dim_Customer.
Record row := { CustomerID : cell; CustomerName : cell; Segment : cell }.

#[global] Instance customer_row_eq_dec : EqDecision row.
Proof. solve_decision. Defined.

Definition names : list string := ["CustomerID"; "CustomerName"; "Segment"].

Definition values (r : row) : list value :=
  map value_of_cell [CustomerID r; CustomerName r; Segment r].

Definition table (l : list row) : Table :=
  {| t_columns := names; t_data := map values l |}.
End Dim_Customer.

Module Dim_Product.
Record row := {
  ProductID : cell; ProductName : cell; Category : cell; SubCategory : cell
}.

#[global] Instance product_row_eq_dec : EqDecision row.
Proof. solve_decision. Defined.

Definition names : list string :=
  ["ProductID"; "ProductName"; "Category"; "SubCategory"].

Definition values (r : row) : list value :=
  map value_of_cell [ProductID r; ProductName r; Category r; SubCategory r].

Definition table (l : list row) : Table :=
  {| t_columns := names; t_data := map values l |}.
End Dim_Product.

Module Dim_ShipMode.
Record row := { ShipModeID : Z; ShipMode : cell }.

Definition names : list string := ["ShipModeID"; "ShipMode"].

Definition values (r : row) : list value :=
  [VInt (ShipModeID r); value_of_cell (ShipMode r)].

Definition table (l : list row) : Table :=
  {| t_columns := names; t_data := map values l |}.
End Dim_ShipMode.

Module Dim_Location.
(** [key] holds the location columns present in the source, in the
    order of [loc_cols]. *)
Record row := { LocationID : Z; key : list cell }.

Definition values (r : row) : list value :=
  VInt (LocationID r) :: map value_of_cell (key r).

Definition table (key_names : list string) (l : list row) : Table :=
  {| t_columns := "LocationID" :: key_names; t_data := map values l |}.
End Dim_Location.

Definition loc_cols : list string :=
  ["city"; "state"; "country"; "region"; "market"; "postal_code"].

(** [[c for c in loc_cols if c in df.columns]]. *)
Definition available_cols (cols : list string) : list string :=
  List.filter (λ c, bool_decide (c ∈ cols)) loc_cols.

(** The field of row [r] in the column named [c]. *)
Definition other_cell (cols : list string) (c : string) (r : SourceRow) : cell :=
  match list_find (λ x, x = c) cols with
  | Some (j, _) => nth j (others r) CNaN
  | None => CNaN
  end.

(** [df[available_cols]] on one row: the composite location tuple. *)
Definition location_key (cols : list string) (r : SourceRow) : list cell :=
  map (λ c, other_cell cols c r) (available_cols cols).

(** The renames applied to Dim_Location's columns. *)
Definition schema_name (c : string) : string :=
  if String.eqb c "postal_code" then "PostalCode"
  else if String.eqb c "city" then "City"
  else if String.eqb c "state" then "State"
  else if String.eqb c "country" then "Country"
  else if String.eqb c "region" then "Region"
  else if String.eqb c "market" then "Market"
  else c.

Definition unknown_date : Dim_Date.row :=
  {| Dim_Date.DateKey := 0; Dim_Date.Date := None; Dim_Date.Year := None;
     Dim_Date.Quarter := None; Dim_Date.Month := None;
     Dim_Date.MonthName := Some "Unknown"; Dim_Date.Day := None;
     Dim_Date.Weekday := None; Dim_Date.IsWeekend := None |}.

Definition date_row (d : Z) : Dim_Date.row :=
  {| Dim_Date.DateKey := strftime_Ymd d;
     Dim_Date.Date := Some d;
     Dim_Date.Year := Some (c_year (civil_from_days d));
     Dim_Date.Quarter := Some (quarter d);
     Dim_Date.Month := Some (c_month (civil_from_days d));
     Dim_Date.MonthName := Some (month_name d);
     Dim_Date.Day := Some (c_day (civil_from_days d));
     Dim_Date.Weekday := Some (day_name d);
     Dim_Date.IsWeekend := Some (bool_decide (dayofweek d ∈ [5; 6])) |}.

(** Lines 144-163: the date dimension.  [pd.date_range] raises a
    ValueError when a bound is NaT, which is the case when no order date
    is present. *)
Definition build_dim_date (df : list FeatureRow) : result (list Dim_Date.row) :=
  let col := map (order_date ∘ src) df in
  match date_min col, date_max col with
  | Some min_date, Some max_date =>
    Ok (unknown_date :: map date_row (date_range min_date max_date))
  | _, _ => Fail (Uncaught ValueError)
  end.

Definition build_dim_customer (df : list FeatureRow) : list Dim_Customer.row :=
  drop_duplicates_by Dim_Customer.CustomerID
    (drop_duplicates
       (map (λ r, {| Dim_Customer.CustomerID := customer_id (src r);
                     Dim_Customer.CustomerName := customer_name (src r);
                     Dim_Customer.Segment := segment (src r) |}) df)).

Definition build_dim_product (df : list FeatureRow) : list Dim_Product.row :=
  drop_duplicates_by Dim_Product.ProductID
    (drop_duplicates
       (map (λ r, {| Dim_Product.ProductID := product_id (src r);
                     Dim_Product.ProductName := product_name (src r);
                     Dim_Product.Category := category (src r);
                     Dim_Product.SubCategory := sub_category (src r) |}) df)).

(** [df[['ship_mode']].drop_duplicates().reset_index(drop=True)], then
    [ShipModeID = index + 1]. *)
Definition build_dim_shipmode (df : list FeatureRow) : list Dim_ShipMode.row :=
  imap (λ i v, {| Dim_ShipMode.ShipModeID := Z.of_nat i + 1;
                  Dim_ShipMode.ShipMode := v |})
       (drop_duplicates (map (ship_mode ∘ src) df)).

(** [df[available_cols].drop_duplicates()].  A frame without columns is
    [empty] for pandas, and [DataFrame.drop_duplicates] returns an empty
    frame as it is ([if self.empty: return self.copy()]): with no
    location column in the source every row is kept. *)
Definition distinct_locations (df : Frame FeatureRow) : list (list cell) :=
  let keys := map (location_key (columns df) ∘ src) (rows df) in
  match available_cols (columns df) with
  | [] => keys
  | _ => drop_duplicates keys
  end.

(** [reset_index(drop=True)], then [LocationID = index + 1]. *)
Definition build_dim_location (df : Frame FeatureRow) : list Dim_Location.row :=
  imap (λ i k, {| Dim_Location.LocationID := Z.of_nat i + 1;
                  Dim_Location.key := k |})
       (distinct_locations df).

(** [load_dim(data, table_name, pk_col)]. *)
Definition load_dim (engine : Engine) (data : Table) (table_name pk_col : string) : M () :=
  insert_data engine data table_name 1000.

(** Lines 165-169: the uniqueness assertion, then the load of Dim_Date. *)
Definition check_and_load_dim_date (engine : Engine) (dim_date : list Dim_Date.row) : M () :=
  py_assert (is_unique (map Dim_Date.DateKey dim_date)) ;;
  load_dim engine (Dim_Date.table dim_date) "Dim_Date" "DateKey".

Definition lift {A} (r : result A) : M A := λ w, (w, r).

Definition create_dimensions (df : Frame FeatureRow) (engine : Engine)
    : M (list Dim_ShipMode.row * list Dim_Location.row) :=
  dim_date ← lift (build_dim_date (rows df));
  check_and_load_dim_date engine dim_date ;;
  load_dim engine (Dim_Customer.table (build_dim_customer (rows df)))
    "Dim_Customer" "CustomerID" ;;
  load_dim engine (Dim_Product.table (build_dim_product (rows df)))
    "Dim_Product" "ProductID" ;;
  let dim_shipmode := build_dim_shipmode (rows df) in
  load_dim engine (Dim_ShipMode.table dim_shipmode) "Dim_ShipMode" "ShipModeID" ;;
  let dim_location := build_dim_location df in
  load_dim engine
    (Dim_Location.table (map schema_name (available_cols (columns df))) dim_location)
    "Dim_Location" "LocationID" ;;
  mret (dim_shipmode, dim_location).

(** ** The fact table *)

Module Fact_Sales.
Record row := {
  RowID : cell;
  OrderID : cell;
  DateKey : Z;
  CustomerID : cell;
  ProductID : cell;
  LocationID : option Z;
  ShipModeID : option Z;
  Sales : float;
  Quantity : cell;
  Discount : float;
  Profit : float;
  ShippingCost : float;
  shipping_days : Z;
  profit_margin : float;
  is_profitable : Z;
  discount_category : cell;
  order_value_segment : cell
}.

Definition names : list string :=
  ["RowID"; "OrderID"; "DateKey"; "CustomerID"; "ProductID"; "LocationID";
   "ShipModeID"; "Sales"; "Quantity"; "Discount"; "Profit"; "ShippingCost";
   "shipping_days"; "profit_margin"; "is_profitable"; "discount_category";
   "order_value_segment"].

Definition values (r : row) : list value :=
  [ value_of_cell (RowID r); value_of_cell (OrderID r); VInt (DateKey r);
    value_of_cell (CustomerID r); value_of_cell (ProductID r);
    value_of_option VInt (LocationID r); value_of_option VInt (ShipModeID r);
    VFloat (Sales r); value_of_cell (Quantity r); VFloat (Discount r);
    VFloat (Profit r); VFloat (ShippingCost r); VInt (shipping_days r);
    VFloat (profit_margin r); VInt (is_profitable r);
    value_of_cell (discount_category r);
    value_of_cell (order_value_segment r) ].

Definition table (l : list row) : Table :=
  {| t_columns := names; t_data := map values l |}.
End Fact_Sales.

(** A row of the frame after the two merges: the feature row with the
    matched Dim_ShipMode and Dim_Location rows, if any. *)
Definition joined : Type :=
  FeatureRow * option Dim_ShipMode.row * option Dim_Location.row.

(** The renames and the projection [fact[fact_cols]] on one row. *)
Definition fact_row (j : joined) : Fact_Sales.row :=
  let r := j.1.1 in
  {| Fact_Sales.RowID := row_id (src r);
     Fact_Sales.OrderID := order_id (src r);
     Fact_Sales.DateKey := date_key r;
     Fact_Sales.CustomerID := customer_id (src r);
     Fact_Sales.ProductID := product_id (src r);
     Fact_Sales.LocationID := Dim_Location.LocationID <$> j.2;
     Fact_Sales.ShipModeID := Dim_ShipMode.ShipModeID <$> j.1.2;
     Fact_Sales.Sales := sales (src r);
     Fact_Sales.Quantity := quantity (src r);
     Fact_Sales.Discount := discount (src r);
     Fact_Sales.Profit := profit (src r);
     Fact_Sales.ShippingCost := shipping_cost (src r);
     Fact_Sales.shipping_days := shipping_days r;
     Fact_Sales.profit_margin := profit_margin r;
     Fact_Sales.is_profitable := is_profitable r;
     Fact_Sales.discount_category := discount_category r;
     Fact_Sales.order_value_segment := order_value_segment r |}.

(** Lines 219-251 of [load_face_sales]: the two left merges, the
    renames, the deduplication on RowID and the projection.  A merge on
    an empty list of key columns raises, so a source without any
    location column stops here. *)
Definition build_fact (df : Frame FeatureRow)
    (dim_shipmode : list Dim_ShipMode.row)
    (dim_location : list Dim_Location.row) : result (list Fact_Sales.row) :=
  let fact :=
    merge_left (ship_mode ∘ src) Dim_ShipMode.ShipMode (rows df) dim_shipmode in
  match available_cols (columns df) with
  | [] => Fail (Uncaught IndexError)
  | _ =>
    let fact : list joined :=
      merge_left (λ p, location_key (columns df) (src p.1)) Dim_Location.key
        fact dim_location in
    let fact := drop_duplicates_by (λ j : joined, row_id (src j.1.1)) fact in
    Ok (map fact_row fact)
  end.

Definition load_face_sales (df : Frame FeatureRow)
    (dim_shipmode : list Dim_ShipMode.row)
    (dim_location : list Dim_Location.row) (engine : Engine) : M () :=
  final_fact ← lift (build_fact df dim_shipmode dim_location);
  insert_data engine (Fact_Sales.table final_fact) "Fact_Sales" 1000.

(** ** main *)

Definition output_tables : list string :=
  ["Dim_Date"; "Dim_Customer"; "Dim_Product"; "Dim_ShipMode"; "Dim_Location";
   "Fact_Sales"].

(** Modelled from the spec: the schema script sql/schema.sql is not part
    of the sources.  It drops and recreates the six target tables, so
    that each of them exists and is empty before the run begins. *)
Definition initialize_schema : M () := λ w,
  ({| db := foldr (λ t, <[t := []]>) (db w) output_tables;
      trace := trace w ++ [InitSchema] |}, Ok ()).

(** [extract_data]: the rows of the file, or [sys.exit(1)] when the file
    does not exist. *)
Definition extract_data (file : option (Frame SourceRow)) : M (Frame SourceRow) :=
  match file with
  | Some df => mret df
  | None => λ w, (w, Fail (SystemExit 1))
  end.

Definition main (engine : Engine) (file : option (Frame SourceRow)) : M () :=
  initialize_schema ;;
  df ← extract_data file;
  let df_transformed := transform_data df in
  dims ← create_dimensions df_transformed engine;
  load_face_sales df_transformed dims.1 dims.2 engine.

(** The contents of the six output tables. *)
Definition table_contents (w : World) : list (option (list sql_row)) :=
  map (λ t, db w !! t) output_tables.

(** ** Vocabulary of the statements *)

(** Position [i] of [l] holds a row, and no earlier position holds a
    row with the same key. *)
Definition first_occurrence_at {A K : Type} (key : A → K) (l : list A) (i : nat) : Prop :=
  ∃ x, l !! i = Some x ∧ ∀ j y, (j < i)%nat → l !! j = Some y → key y ≠ key x.

(** [out] is [l] cut down to the first occurrence of every key, in the
    order of [l]: the rows at the positions [idx], which are increasing
    and are exactly the first occurrences.  [idx] says where each row
    of [out] comes from. *)
Definition first_occurrences {A K : Type} (key : A → K) (l out : list A)
    (idx : list nat) : Prop :=
  StronglySorted lt idx
  ∧ (∀ i, i ∈ idx ↔ first_occurrence_at key l i)
  ∧ Forall2 (λ x i, l !! i = Some x) out idx.

(** The batches [insert_data] cuts its rows into. *)
Definition batches (chunksize : nat) (data : list sql_row) : list (list sql_row) :=
  map (λ i, take chunksize (drop i data)) (py_range (length data) chunksize).

(** Two worlds hold the same rows in the six output tables. *)
Definition same_tables (w w' : World) : Prop :=
  table_contents w = table_contents w'.

(** The first row of [right] whose key is [k], if any. *)
Definition first_match {R K : Type} `{EqDecision K} (right_on : R → K) (k : K)
    (right : list R) : option R :=
  head (List.filter (λ r, bool_decide (right_on r = k)) right).

(** The number of leading batches the store takes, each offered on top
    of the rows held and the batches before it. *)
Fixpoint accepted_batches (engine : Engine) (table_name : string)
    (held : list sql_row) (chunks : list (list sql_row)) : nat :=
  match chunks with
  | [] => 0
  | c :: chunks' =>
    if accepts engine table_name held c
    then S (accepted_batches engine table_name (held ++ c) chunks')
    else 0
  end.

(** The outcome of a step and the output tables it leaves depend on
    the output tables it finds, and on nothing else of the world. *)
Definition table_determined {A : Type} (m : M A) : Prop :=
  ∀ w w', same_tables w w' → (m w).2 = (m w').2 ∧ same_tables (m w).1 (m w').1.

(** The frame [transform_data] holds just before its last step. *)
Definition before_truncation (raw : Frame SourceRow) : Frame FeatureRow :=
  {| columns := map normalize_column (columns raw);
     rows := feature_engineering (map convert_dates (map normalize_ids (rows raw))) |}.

(** The fact row built from feature row [r]: its keys are those of the
    first matching dimension rows. *)
Definition resolved_fact (df : Frame FeatureRow) (dim_shipmode : list Dim_ShipMode.row)
    (dim_location : list Dim_Location.row) (r : FeatureRow) : Fact_Sales.row :=
  fact_row (r,
    first_match Dim_ShipMode.ShipMode (ship_mode (src r)) dim_shipmode,
    first_match Dim_Location.key (location_key (columns df) (src r)) dim_location).


(** ** Sample data *)

(** A record of a sample file; [city] is the first of its two other
    columns. *)
Definition sample_row (id : Z) (day : option Z) (mode : string) (amount rebate : float)
    (city : cell) : SourceRow :=
  {| row_id := CInt id; order_id := CStr "CA-2024-1";
     order_date := day; ship_date := (λ d, d + 4) <$> day;
     ship_mode := CStr mode; customer_id := CStr "cg-12520";
     customer_name := CStr "Claire Gute"; segment := CStr "Consumer";
     product_id := CStr "fur-bo-1"; product_name := CStr "Bookcase";
     category := CStr "Furniture"; sub_category := CNaN;
     sales := amount; quantity := CInt 2; discount := rebate;
     profit := 50%float; shipping_cost := 1%float;
     others := [city; CStr "Texas"] |}.

(** Five records; the third repeats the row id of the second. *)
Definition sample_frame : Frame SourceRow :=
  {| columns := ["City"; "State"];
     rows := [ sample_row 1 (Some 19723) "Second Class" 200 0 (CStr "Austin");
               sample_row 2 (Some 19725) "Second Class" 100 0.5 CNaN;
               sample_row 2 None "First Class" 300 0.125 (CStr "Austin");
               sample_row 3 None "First Class" 400 0.5 (CStr "Dallas");
               sample_row 4 (Some 19724) "First Class" 500 0.5 (CStr "Dallas") ] |}.

Definition accept_all : Engine := {| accepts := λ _ _ _, true |}.

Definition empty_world : World := {| db := ∅; trace := [] |}.

(** A table of 1001 rows: two batches. *)
Definition wide_table : Table :=
  {| t_columns := ["ShipModeID"; "ShipMode"];
     t_data := map (λ i, [VInt (Z.of_nat i); VStr "Same Day"]) (seq 1 1001) |}.

(** A store that holds at most 1000 rows per table. *)
Definition small_store : Engine :=
  {| accepts := λ _ held chunk, bool_decide (length held + length chunk ≤ 1000)%nat |}.


(** ** execute_schema_script *)

Module SchemaScript.



(** [s.split(sep)] for a one-character separator: the pieces between
    the separators, empty ones included; the empty text gives one empty
    piece. *)
Fixpoint split (sep : N) (s : list N) : list (list N) :=
  match s with
  | [] => [[]]
  | c :: s' =>
    if (c =? sep)%N then [] :: split sep s'
    else
      match split sep s' with
      | piece :: pieces => (c :: piece) :: pieces
      | [] => [[c]]
      end
  end.


Inductive event :=
  | Execute (statement : list N)
  | ExecuteRaised (statement : list N)
  | Commit
  | Close.




(** [sep.join(pieces)]. *)
Fixpoint join (sep : N) (pieces : list (list N)) : list N :=
  match pieces with
  | [] => []
  | [piece] => piece
  | piece :: pieces' => piece ++ sep :: join sep pieces'
  end.

(** The statements a trace shows as sent to the store. *)
Definition sent (evs : list event) : list (list N) :=
  omap (λ ev, match ev with
              | Execute st | ExecuteRaised st => Some st
              | _ => None
              end) evs.
End SchemaScript.

(** ** Vocabulary of the further statements *)

(** The parameter rows [insert_data] makes of a table. *)
Definition table_rows (t : Table) : list sql_row := map to_sql_row (t_data t).

(** The five dimension tables [create_dimensions] loads, in its order,
    each under the name of its target. *)
Definition dimension_tables (df : Frame FeatureRow) (dim_date : list Dim_Date.row)
    : list (string * Table) :=
  [ ("Dim_Date", Dim_Date.table dim_date);
    ("Dim_Customer", Dim_Customer.table (build_dim_customer (rows df)));
    ("Dim_Product", Dim_Product.table (build_dim_product (rows df)));
    ("Dim_ShipMode", Dim_ShipMode.table (build_dim_shipmode (rows df)));
    ("Dim_Location",
     Dim_Location.table (map schema_name (available_cols (columns df)))
       (build_dim_location df)) ].

(** Loading tables one after the other, as [create_dimensions] and
    [load_face_sales] do: the first failure ends the run. *)
Fixpoint load_tables (engine : Engine) (tables : list (string * Table)) : M () :=
  match tables with
  | [] => mret ()
  | (table_name, t) :: tables' =>
    insert_data engine t table_name 1000 ;; load_tables engine tables'
  end.



(** Table [nt.1] of the store holds exactly the rows of [nt.2]. *)
Definition loaded (w : World) (nt : string * Table) : Prop :=
  db w !! nt.1 = Some (table_rows nt.2).

(** The table is there and holds no row. *)
Definition empty_table (w : World) (table_name : string) : Prop :=
  db w !! table_name = Some [].

(** The fact table under the name of its target. *)
Definition fact_table (facts : list Fact_Sales.row) : string * Table :=
  ("Fact_Sales", Fact_Sales.table facts).



(** * Properties *)

(** ** Floats: comparisons through their specification *)

Lemma float_eqb_ltb_false (a b : float) :
  PrimFloat.eqb a b = true → PrimFloat.ltb a b = false.
Proof.
  intros H. rewrite FloatAxioms.eqb_spec in H. rewrite FloatAxioms.ltb_spec.
  unfold SFeqb, SFltb in *.
  destruct (SFcompare _ _) as [[]|]; congruence.
Qed.

Lemma float_ltb_eqb_false (a b : float) :
  PrimFloat.ltb a b = true → PrimFloat.eqb b a = false.
Proof.
  intros H. rewrite FloatAxioms.ltb_spec in H. rewrite FloatAxioms.eqb_spec.
  unfold SFeqb, SFltb in *.
  destruct (Prim2SF a) as [[]|[]| |[] ? ?], (Prim2SF b) as [[]|[]| |[] ? ?];
    simpl in *; try congruence.
  all: rewrite Z.compare_antisym; destruct (_ ?= _)%Z eqn:He; simpl in *; try congruence.
  all: change (PosDef.Pos.compare_cont Eq m0 m) with (Pos.compare m0 m);
    change (PosDef.Pos.compare_cont Eq m m0) with (Pos.compare m m0) in H;
    rewrite (Pos.compare_antisym m m0);
    destruct (m ?= m0)%positive; simpl in *; congruence.
Qed.

Lemma float_leb_ltb_false (a b : float) :
  PrimFloat.leb a b = true → PrimFloat.ltb b a = false.
Proof.
  intros H. rewrite FloatAxioms.leb_spec in H. rewrite FloatAxioms.ltb_spec.
  unfold SFleb, SFltb in *.
  destruct (Prim2SF a) as [[]|[]| |[] ? ?], (Prim2SF b) as [[]|[]| |[] ? ?];
    simpl in *; try congruence.
  all: rewrite Z.compare_antisym; destruct (_ ?= _)%Z eqn:He; simpl in *; try congruence.
  all: change (PosDef.Pos.compare_cont Eq m0 m) with (Pos.compare m0 m);
    change (PosDef.Pos.compare_cont Eq m m0) with (Pos.compare m m0) in H;
    rewrite (Pos.compare_antisym m m0);
    destruct (m ?= m0)%positive; simpl in *; congruence.
Qed.

(** ** Duplicates *)

Lemma map_fmap {A B} (f : A → B) (l : list A) : map f l = f <$> l.
Proof. reflexivity. Qed.

Section Duplicates.
Context {A K : Type} `{EqDecision K}.
Implicit Types (key : A → K) (seen : list K) (l p : list A).

Lemma drop_duplicates_from_elem key seen l x :
  x ∈ drop_duplicates_from key seen l → x ∈ l ∧ key x ∉ seen.
Proof.
  revert seen. induction l as [|y l IH]; intros seen; simpl.
  - intros Hx. inversion Hx.
  - case_bool_decide as Hy.
    + intros Hx. apply IH in Hx as [??]. split; [by right|done].
    + rewrite elem_of_cons. intros [->|Hx].
      * split; [by left|done].
      * apply IH in Hx as [? Hn]. split; [by right|].
        intros ?. apply Hn. by right.
Qed.

Lemma drop_duplicates_from_keys key seen l k :
  k ∈ key <$> drop_duplicates_from key seen l ↔ k ∈ key <$> l ∧ k ∉ seen.
Proof.
  revert seen. induction l as [|y l IH]; intros seen; simpl.
  - rewrite elem_of_nil. tauto.
  - case_bool_decide as Hy.
    + rewrite IH, elem_of_cons. split; [tauto|].
      intros [[->|?] ?]; tauto.
    + rewrite fmap_cons, !elem_of_cons, IH, elem_of_cons.
      destruct (decide (k = key y)) as [->|]; tauto.
Qed.

Lemma drop_duplicates_from_NoDup key seen l :
  NoDup (key <$> drop_duplicates_from key seen l).
Proof.
  revert seen. induction l as [|y l IH]; intros seen; simpl.
  - constructor.
  - case_bool_decide as Hy; [apply IH|].
    rewrite fmap_cons. constructor; [|apply IH].
    rewrite drop_duplicates_from_keys, elem_of_cons. tauto.
Qed.


(** With [seen] the keys of the rows [p] already passed, the rows kept
    from [l] are those at the first occurrences of their keys in
    [p ++ l]. *)
Lemma drop_duplicates_from_first key p seen l :
  (∀ k, k ∈ seen ↔ k ∈ key <$> p) →
  ∃ idx, StronglySorted lt idx
    ∧ (∀ i, i ∈ idx ↔ (length p ≤ i)%nat ∧ first_occurrence_at key (p ++ l) i)
    ∧ Forall2 (λ x i, (p ++ l) !! i = Some x) (drop_duplicates_from key seen l) idx.
Proof.
  revert p seen. induction l as [|x l IH]; intros p seen Hseen; simpl.
  - exists []. split; [constructor|]. split; [|constructor].
    intros i. rewrite elem_of_nil. split; [done|].
    intros [Hi (y & Hy & _)]. apply lookup_lt_Some in Hy.
    rewrite length_app in Hy. simpl in Hy. lia.
  - assert (Hmid : (p ++ x :: l) !! length p = Some x) by apply list_lookup_middle, eq_refl.
    case_bool_decide as Hx.
    + destruct (IH (p ++ [x]) seen) as (idx & Hs & Hm & Hf).
      { intros k. rewrite fmap_app, elem_of_app, <- Hseen. simpl.
        rewrite list_elem_of_singleton. split; [tauto|]. intros [?| ->]; done. }
      rewrite <- app_assoc in Hm, Hf. simpl in Hm, Hf.
      exists idx. split; [done|]. split; [|done].
      intros i. rewrite Hm, length_app. simpl. split; [intros [??]; split; [lia|done]|].
      intros [Hi Hfo]. split; [|done].
      destruct (decide (i = length p)) as [->|]; [|lia].
      exfalso. destruct Hfo as (y & Hy & Hfirst).
      rewrite Hmid in Hy. injection Hy as <-.
      apply Hseen, list_elem_of_fmap in Hx as (z & Hk & Hz).
      apply list_elem_of_lookup in Hz as [j Hj].
      apply (Hfirst j z); [by apply lookup_lt_Some in Hj| |done].
      by apply lookup_app_l_Some.
    + destruct (IH (p ++ [x]) (key x :: seen)) as (idx & Hs & Hm & Hf).
      { intros k. rewrite fmap_app, elem_of_app, elem_of_cons, <- Hseen. simpl.
        rewrite list_elem_of_singleton. tauto. }
      rewrite <- app_assoc in Hm, Hf. simpl in Hm, Hf.
      rewrite length_app in Hm. simpl in Hm.
      exists (length p :: idx). split; [|split].
      * constructor; [done|]. apply Forall_forall. intros i Hi.
        apply Hm in Hi. lia.
      * intros i. rewrite elem_of_cons, Hm. split.
        -- intros [->|[??]]; [|split; [lia|done]]. split; [done|].
           exists x. split; [done|]. intros j y Hj Hy Heq.
           apply Hx, Hseen. rewrite <- Heq. apply list_elem_of_fmap. exists y. split; [done|].
           rewrite lookup_app_l in Hy by done. by apply list_elem_of_lookup_2 in Hy.
        -- intros [Hi Hfo]. destruct (decide (i = length p)); [by left|right].
           split; [lia|done].
      * by constructor.
Qed.

Lemma drop_duplicates_by_first key l :
  ∃ idx, first_occurrences key l (drop_duplicates_by key l) idx.
Proof.
  destruct (drop_duplicates_from_first key [] [] l) as (idx & Hs & Hm & Hf).
  { intros k. simpl. done. }
  exists idx. split; [done|]. split; [|done].
  intros i. rewrite Hm. simpl. split; [tauto|]. split; [lia|done].
Qed.
End Duplicates.

Lemma is_unique_NoDup {K} `{EqDecision K} (l : list K) :
  is_unique l = true ↔ NoDup l.
Proof.
  induction l as [|x l IH]; simpl.
  - split; [constructor|done].
  - rewrite NoDup_cons, andb_true_iff, negb_true_iff, bool_decide_eq_false, IH. done.
Qed.


Section Merge.
Context {L R K J : Type} `{EqDecision K} `{EqDecision J}.
Implicit Types (left : list L) (right : list R).

Lemma drop_duplicates_from_seen_block (kf : L → J) (kf' : L * option R → J)
    seen (l : L) (block : list (option R)) (rest : list (L * option R)) :
  (∀ l o, kf' (l, o) = kf l) →
  kf l ∈ seen →
  drop_duplicates_from kf' seen (((λ o, (l, o)) <$> block) ++ rest)
  = drop_duplicates_from kf' seen rest.
Proof.
  intros Hk Hl. induction block as [|o block IH]; simpl; [done|].
  by rewrite Hk, bool_decide_eq_true_2.
Qed.

Lemma merge_left_cons (left_on : L → K) (right_on : R → K) l left right :
  ∃ block,
    merge_left left_on right_on (l :: left) right
    = ((λ o, (l, o)) <$> (first_match right_on (left_on l) right :: block))
      ++ merge_left left_on right_on left right.
Proof.
  unfold merge_left, first_match. cbn [flat_map].
  destruct (List.filter _ right) as [|m ms]; [by exists []|].
  exists (Some <$> ms). f_equal. cbn [head map fmap list_fmap]. f_equal.
  rewrite map_fmap, <- list_fmap_compose. done.
Qed.

(** Deduplicating a left merge on a key of its left rows keeps every
    kept left row once, joined with its first match. *)
Lemma drop_duplicates_from_merge_left (kf : L → J) (kf' : L * option R → J)
    (left_on : L → K) (right_on : R → K) seen left right :
  (∀ l o, kf' (l, o) = kf l) →
  drop_duplicates_from kf' seen (merge_left left_on right_on left right)
  = (λ l, (l, first_match right_on (left_on l) right))
      <$> drop_duplicates_from kf seen left.
Proof.
  intros Hk. revert seen. induction left as [|l left IH]; intros seen; [done|].
  destruct (merge_left_cons left_on right_on l left right) as [block ->].
  rewrite fmap_cons. cbn [app drop_duplicates_from]. rewrite Hk.
  case_bool_decide as Hl.
  - rewrite (drop_duplicates_from_seen_block kf) by done. apply IH.
  - rewrite fmap_cons. f_equal.
    rewrite (drop_duplicates_from_seen_block kf) by (done || by left). apply IH.
Qed.
End Merge.

(** ** build_fact in closed form *)

Lemma build_fact_ok (df : Frame FeatureRow) ds dl :
  available_cols (columns df) ≠ [] →
  build_fact df ds dl =
  Ok ((λ r, fact_row (r,
              first_match Dim_ShipMode.ShipMode (ship_mode (src r)) ds,
              first_match Dim_Location.key (location_key (columns df) (src r)) dl))
      <$> drop_duplicates_by (row_id ∘ src) (rows df)).
Proof.
  intros Hav. unfold build_fact.
  destruct (available_cols (columns df)) as [|c cs]; [done|].
  apply (f_equal Ok). unfold drop_duplicates_by, joined.
  rewrite (drop_duplicates_from_merge_left (λ p, row_id (src p.1))) by done.
  rewrite (drop_duplicates_from_merge_left (row_id ∘ src)) by done.
  rewrite map_fmap, <- !list_fmap_compose. done.
Qed.

Lemma build_fact_fail (df : Frame FeatureRow) ds dl :
  available_cols (columns df) = [] →
  build_fact df ds dl = Fail (Uncaught IndexError).
Proof. intros Hav. unfold build_fact. by rewrite Hav. Qed.

(** ** Calendar *)

(** [year_of_era] inverts [days_before_year] on the days of an era. *)
Lemma year_of_era_spec doe :
  0 ≤ doe ≤ 146096 →
  0 ≤ year_of_era doe ≤ 399
  ∧ days_before_year (year_of_era doe) ≤ doe
  ∧ doe < days_before_year (year_of_era doe + 1) + (year_of_era doe + 1) `div` 400.
Proof.
  intros H. unfold days_before_year, year_of_era.
  assert (Hc : doe = 146096 ∨ doe < 146096) by lia.
  destruct Hc as [->|Hc]; [clear; by vm_compute|].
  replace (doe `div` 146096) with 0 by (symmetry; apply Z.div_small; lia).
  assert (Hb : doe `div` 36524 = 0 ∨ doe `div` 36524 = 1
             ∨ doe `div` 36524 = 2 ∨ doe `div` 36524 = 3)
    by (Z.div_mod_to_equations; lia).
  destruct Hb as [Hb|[Hb|[Hb|Hb]]]; rewrite Hb; Z.div_mod_to_equations; lia.
Qed.

Lemma day_of_year_bounds doe :
  0 ≤ doe ≤ 146096 → 0 ≤ doe - days_before_year (year_of_era doe) ≤ 365.
Proof.
  intros H. destruct (year_of_era_spec doe H) as (Hy & Hlo & Hhi).
  revert Hlo Hhi. generalize (year_of_era doe) Hy. clear. intros y Hy.
  unfold days_before_year. intros. Z.div_mod_to_equations. lia.
Qed.

Lemma month_day_bounds doy :
  0 ≤ doy ≤ 365 →
  0 ≤ month_index doy ≤ 11 ∧ 1 ≤ doy - days_before_month (month_index doy) + 1 ≤ 31.
Proof.
  intros H. unfold month_index, days_before_month. Z.div_mod_to_equations. lia.
Qed.

Lemma month_day_step doy :
  0 ≤ doy < 365 →
  (month_index (doy + 1) = month_index doy)
  ∨ (month_index (doy + 1) = month_index doy + 1
     ∧ doy + 1 - days_before_month (month_index (doy + 1)) = 0).
Proof.
  intros H. unfold month_index, days_before_month. Z.div_mod_to_equations. lia.
Qed.

Lemma year_of_era_step doe :
  0 ≤ doe < 146096 →
  year_of_era (doe + 1) = year_of_era doe
  ∨ (year_of_era (doe + 1) = year_of_era doe + 1
     ∧ doe + 1 = days_before_year (year_of_era (doe + 1))).
Proof.
  intros H.
  destruct (year_of_era_spec doe) as (Hy & Hlo & Hhi); [lia|].
  destruct (year_of_era_spec (doe + 1)) as (Hy' & Hlo' & Hhi'); [lia|].
  revert Hlo Hhi Hlo' Hhi'.
  generalize (year_of_era doe) (year_of_era (doe + 1)) Hy Hy'. clear.
  intros y y' Hy Hy'. unfold days_before_year. intros.
  Z.div_mod_to_equations. lia.
Qed.

Ltac case_compare :=
  repeat match goal with
  | |- context [?a <? ?b] => destruct (Z.ltb_spec a b)
  | |- context [?a <=? ?b] => destruct (Z.leb_spec a b)
  end.

Lemma civil_of_era_bounds era doe :
  0 ≤ doe ≤ 146096 →
  1 ≤ c_month (civil_of_era era doe) ≤ 12 ∧ 1 ≤ c_day (civil_of_era era doe) ≤ 31.
Proof.
  intros Hdoe. unfold civil_of_era. cbn [c_month c_day].
  pose proof (day_of_year_bounds doe Hdoe) as Hdoy.
  destruct (month_day_bounds _ Hdoy) as [Hm Hd].
  split; [|done]. destruct (_ <? 10) eqn:E; lia.
Qed.

Lemma civil_of_era_step era doe :
  0 ≤ doe < 146096 →
  ymd (civil_of_era era doe) < ymd (civil_of_era era (doe + 1)).
Proof.
  intros Hdoe. unfold ymd, civil_of_era. cbn [c_year c_month c_day].
  pose proof (day_of_year_bounds doe ltac:(lia)) as Hdoy.
  pose proof (day_of_year_bounds (doe + 1) ltac:(lia)) as Hdoy'.
  destruct (month_day_bounds _ Hdoy) as [Hm Hd].
  destruct (year_of_era_step doe Hdoe) as [Hy|[Hy Hnew]].
  - rewrite Hy in *.
    replace (doe + 1 - days_before_year (year_of_era doe))
      with (doe - days_before_year (year_of_era doe) + 1) in * by lia.
    revert Hdoy Hdoy' Hm Hd.
    generalize (doe - days_before_year (year_of_era doe)).
    generalize (year_of_era doe).
    intros yoe doy Hdoy Hdoy' Hm Hd.
    destruct (month_day_bounds _ Hdoy') as [Hm' Hd'].
    destruct (month_day_step doy ltac:(lia)) as [Hs|[Hs Hz]].
    + rewrite Hs in *. case_compare; lia.
    + rewrite Hs in *. case_compare; lia.
  - rewrite Hy in *. rewrite <- Hnew.
    replace (doe + 1 - (doe + 1)) with 0 by lia.
    change (month_index 0) with 0. change (days_before_month 0) with 0.
    change (0 <? 10) with true. cbn [Z.add]. change (3 <=? 2) with false.
    revert Hm Hd.
    generalize (doe - days_before_year (year_of_era doe)).
    generalize (year_of_era doe).
    intros yoe doy. generalize (month_index doy). intros mp Hm Hd.
    case_compare; lia.
Qed.

Lemma civil_of_era_next era :
  ymd (civil_of_era era 146096) < ymd (civil_of_era (era + 1) 0).
Proof.
  unfold ymd, civil_of_era.
  change (year_of_era 146096) with 399. change (year_of_era 0) with 0.
  change (days_before_year 399) with 145731. change (days_before_year 0) with 0.
  change (146096 - 145731) with 365. change (0 - 0) with 0.
  change (month_index 365) with 11. change (month_index 0) with 0.
  change (days_before_month 11) with 337. change (days_before_month 0) with 0.
  cbn [c_year c_month c_day].
  change (11 <? 10) with false. change (0 <? 10) with true. cbv iota.
  change (11 - 9 <=? 2) with true. change (0 + 3 <=? 2) with false. cbv iota. lia.
Qed.

(** The next day has the larger YYYYMMDD number. *)
Lemma strftime_Ymd_succ z : strftime_Ymd z < strftime_Ymd (z + 1).
Proof.
  unfold strftime_Ymd, civil_from_days. cbv zeta.
  set (era := (z + 719468) `div` 146097).
  set (doe := z + 719468 - era * 146097).
  assert (Hdoe : 0 ≤ doe ≤ 146096) by (subst doe era; Z.div_mod_to_equations; lia).
  destruct (decide (doe = 146096)) as [Hlast|Hin].
  - replace ((z + 1 + 719468) `div` 146097) with (era + 1)
      by (subst doe era; Z.div_mod_to_equations; lia).
    replace (z + 1 + 719468 - (era + 1) * 146097) with 0 by lia.
    rewrite Hlast. apply civil_of_era_next.
  - replace ((z + 1 + 719468) `div` 146097) with era
      by (subst doe era; Z.div_mod_to_equations; lia).
    replace (z + 1 + 719468 - era * 146097) with (doe + 1) by lia.
    apply civil_of_era_step. lia.
Qed.

Lemma strftime_Ymd_mono a b : a < b → strftime_Ymd a < strftime_Ymd b.
Proof.
  intros Hab. replace b with (a + Z.of_nat (Z.to_nat (b - a))) by lia.
  assert (Hpos : (0 < Z.to_nat (b - a))%nat) by lia.
  revert Hpos. generalize (Z.to_nat (b - a)). clear. intros n Hn.
  induction n as [|n IH]; [lia|].
  destruct n as [|n].
  - apply strftime_Ymd_succ.
  - etransitivity; [apply IH; lia|].
    replace (a + Z.of_nat (S (S n))) with (a + Z.of_nat (S n) + 1) by lia.
    apply strftime_Ymd_succ.
Qed.

Lemma strftime_Ymd_inj a b : strftime_Ymd a = strftime_Ymd b → a = b.
Proof.
  intros Heq. destruct (Z.lt_trichotomy a b) as [H|[H|H]]; [|done|].
  - apply strftime_Ymd_mono in H. lia.
  - apply strftime_Ymd_mono in H. lia.
Qed.

Lemma civil_from_days_bounds z :
  1 ≤ c_month (civil_from_days z) ≤ 12 ∧ 1 ≤ c_day (civil_from_days z) ≤ 31.
Proof.
  unfold civil_from_days. apply civil_of_era_bounds.
  Z.div_mod_to_equations. lia.
Qed.

Lemma strftime_Ymd_nonzero z : strftime_Ymd z ≠ 0.
Proof.
  unfold strftime_Ymd, ymd. destruct (civil_from_days_bounds z) as [Hm Hd]. lia.
Qed.

(** ** Date ranges *)


Lemma NoDup_date_range lo hi : NoDup (date_range lo hi).
Proof.
  unfold date_range. rewrite map_fmap. apply NoDup_fmap_2; [|apply NoDup_seq].
  intros a b Hab. lia.
Qed.







Lemma NoDup_date_keys lo hi :
  NoDup (Dim_Date.DateKey <$> (unknown_date :: (date_row <$> date_range lo hi))).
Proof.
  rewrite fmap_cons, <- list_fmap_compose. constructor.
  - rewrite list_elem_of_fmap. intros (d & Hd & _). simpl in Hd.
    by apply (strftime_Ymd_nonzero d).
  - apply NoDup_fmap_2; [|apply NoDup_date_range].
    intros a b Hab. by apply strftime_Ymd_inj.
Qed.

(** ** transform_data, row by row *)

Lemma truncate_if_literal (b : bool) (s : string) :
  str_slice 255 s = s → truncate_if b (CStr s) = CStr s.
Proof. intros Hs. destruct b; [|done]. unfold truncate_if, truncate_cell. simpl. by rewrite Hs. Qed.

Lemma truncate_if_categorize b d :
  truncate_if b (CStr (categorize_discount d)) = CStr (categorize_discount d).
Proof.
  apply truncate_if_literal. unfold categorize_discount.
  repeat case_match; reflexivity.
Qed.

Lemma truncate_if_segment b t s :
  truncate_if b (CStr (order_value_segment_of t s)) = CStr (order_value_segment_of t s).
Proof.
  apply truncate_if_literal. unfold order_value_segment_of.
  case_match; reflexivity.
Qed.

Lemma sales_threshold_converted (l : list SourceRow) :
  sales_threshold (map convert_dates (map normalize_ids l)) = sales_threshold l.
Proof.
  unfold sales_threshold. f_equal. rewrite !map_map. done.
Qed.

(** What [transform_data] leaves in the columns that hold no text. *)
Lemma transform_data_row (raw : Frame SourceRow) (r : FeatureRow) :
  r ∈ rows (transform_data raw) →
  ∃ s, s ∈ rows raw
    ∧ order_date (src r) = to_datetime (order_date s)
    ∧ ship_date (src r) = to_datetime (ship_date s)
    ∧ sales (src r) = sales s
    ∧ discount (src r) = discount s
    ∧ profit (src r) = profit s
    ∧ date_key r = date_key_of (src r)
    ∧ shipping_days r = shipping_days_of (src r)
    ∧ profit_margin r = profit_margin_of (src r)
    ∧ is_profitable r = is_profitable_of (src r)
    ∧ discount_category r = CStr (categorize_discount (discount s))
    ∧ order_value_segment r
      = CStr (order_value_segment_of (sales_threshold (rows raw)) (src r)).
Proof.
  unfold transform_data. cbn [rows]. intros Hr.
  unfold truncate_strings in Hr.
  apply list_elem_of_fmap in Hr as (f & -> & Hf).
  apply list_elem_of_fmap in Hf as (c & -> & Hc).
  apply list_elem_of_fmap in Hc as (n & -> & Hn).
  apply list_elem_of_fmap in Hn as (s & -> & Hs).
  exists s. split; [done|]. cbn.
  repeat split; try done.
  - apply truncate_if_categorize.
  - rewrite truncate_if_segment, sales_threshold_converted. done.
Qed.

(** ** The discount categories *)

(** C7: [categorize_discount] gives "No Discount" for a discount equal
    to 0, "Low" for a discount strictly between 0 and 0.2, and "High"
    for a discount of 0.2 or more; the bound 0.2 itself is "High". *)
Theorem categorize_discount_boundaries (d : float) :
  (PrimFloat.eqb d f_zero = true → categorize_discount d = "No Discount")
  ∧ (PrimFloat.ltb f_zero d = true → PrimFloat.ltb d f_0_2 = true →
     categorize_discount d = "Low")
  ∧ (PrimFloat.leb f_0_2 d = true → categorize_discount d = "High")
  ∧ categorize_discount f_0_2 = "High".
Proof.
  unfold categorize_discount. repeat split.
  - by intros ->.
  - intros H0 H2. by rewrite (float_ltb_eqb_false _ _ H0), H2.
  - intros H2. rewrite (float_leb_ltb_false _ _ H2).
    assert (PrimFloat.ltb f_zero d = true) as H0.
    { revert H2. rewrite FloatAxioms.leb_spec, FloatAxioms.ltb_spec.
      change (Prim2SF f_0_2) with (S754_finite false 7205759403792794 (-55)).
      change (Prim2SF f_zero) with (S754_zero false).
      unfold SFleb, SFltb.
      destruct (Prim2SF d) as [[]|[]| |[] ? ?]; simpl; congruence. }
    by rewrite (float_ltb_eqb_false _ _ H0).
Qed.

Lemma categorize_discount_boundaries_witness :
  categorize_discount 0%float = "No Discount"
  ∧ categorize_discount 0.125%float = "Low"
  ∧ categorize_discount 0.5%float = "High".
Proof.
  split; [|split].
  - apply (proj1 (categorize_discount_boundaries 0%float)). reflexivity.
  - apply (proj1 (proj2 (categorize_discount_boundaries 0.125%float))); reflexivity.
  - apply (proj1 (proj2 (proj2 (categorize_discount_boundaries 0.5%float)))). reflexivity.
Defined.


(** ** The order value segment *)



Lemma py_assert_false (w : World) : py_assert false w = (w, Fail (Uncaught AssertionError)).
Proof. done. Qed.

Lemma build_dim_date_Ok (df : list FeatureRow) (dim_date : list Dim_Date.row) :
  build_dim_date df = Ok dim_date →
  ∃ min_date max_date,
    date_min (map (order_date ∘ src) df) = Some min_date
    ∧ date_max (map (order_date ∘ src) df) = Some max_date
    ∧ dim_date = unknown_date :: map date_row (date_range min_date max_date).
Proof.
  unfold build_dim_date.
  destruct (date_min _) as [lo|]; [|done].
  destruct (date_max _) as [hi|]; [|done].
  intros [= <-]. by exists lo, hi.
Qed.

(** ** The date dimension *)





(** ** insert_data *)

Lemma concat_batches_prefix (data : list sql_row) (n j : nat) :
  concat (map (λ i, take n (drop i data)) (map (λ k, k * n)%nat (seq 0 j)))
  = take (j * n) data.
Proof.
  induction j as [|j IH]; [done|].
  rewrite seq_S, !map_app, concat_app, IH. simpl. rewrite app_nil_r.
  rewrite take_take_drop. f_equal. lia.
Qed.

Lemma concat_batches (data : list sql_row) (n : nat) :
  (0 < n)%nat → concat (batches n data) = data.
Proof.
  intros Hn. unfold batches, py_range. rewrite concat_batches_prefix.
  apply take_ge.
  pose proof (Nat.div_mod (length data + n - 1) n ltac:(lia)) as Hd.
  pose proof (Nat.mod_upper_bound (length data + n - 1) n ltac:(lia)) as Hm.
  nia.
Qed.

Lemma batches_sizes (data : list sql_row) (n : nat) :
  (0 < n)%nat → Forall (λ c, 0 < length c ≤ n)%nat (batches n data).
Proof.
  intros Hn. unfold batches, py_range. apply Forall_forall. intros c Hc.
  rewrite !map_fmap, <- list_fmap_compose in Hc.
  apply list_elem_of_fmap in Hc as (k & -> & Hk). apply elem_of_seq in Hk.
  simpl. rewrite length_take, length_drop.
  pose proof (Nat.div_mod (length data + n - 1) n ltac:(lia)) as Hd.
  pose proof (Nat.mod_upper_bound (length data + n - 1) n ltac:(lia)) as Hm.
  nia.
Qed.

Lemma accepted_batches_le engine table_name held chunks :
  (accepted_batches engine table_name held chunks ≤ length chunks)%nat.
Proof.
  revert held. induction chunks as [|c cs IH]; intros held; simpl; [done|].
  destruct (accepts _ _ _ _); [|lia]. specialize (IH (held ++ c)). lia.
Qed.

Lemma accepted_batches_spec engine table_name held chunks :
  let k := accepted_batches engine table_name held chunks in
  (∀ i c, (i < k)%nat → chunks !! i = Some c →
     accepts engine table_name (held ++ concat (take i chunks)) c = true)
  ∧ (∀ c, chunks !! k = Some c →
     accepts engine table_name (held ++ concat (take k chunks)) c = false).
Proof.
  revert held. induction chunks as [|c cs IH]; intros held; simpl.
  - split; intros; done.
  - destruct (accepts engine table_name held c) eqn:Hacc.
    + destruct (IH (held ++ c)) as [IH1 IH2]. split.
      * intros [|i] c' Hi Hc'; simpl in *.
        -- rewrite app_nil_r. congruence.
        -- rewrite app_assoc. apply IH1; [lia|done].
      * intros c' Hc'. simpl in *. rewrite app_assoc. by apply IH2.
    + split; [intros; lia|]. intros c' [= <-]. simpl. by rewrite app_nil_r.
Qed.

(** The loop commits the accepted prefix of the batches and stops. *)
Lemma insert_chunks_spec engine sql table_name data n starts w held :
  db w !! table_name = Some held →
  let chunks := map (λ i, take n (drop i data)) starts in
  let k := accepted_batches engine table_name held chunks in
  insert_chunks engine sql table_name data n starts w
  = ({| db := <[table_name := held ++ concat (take k chunks)]> (db w);
        trace := trace w
                 ++ flat_map (λ c, [Executemany sql c; Commit]) (take k chunks)
                 ++ match chunks !! k with
                    | Some c => [ExecutemanyRaised sql c]
                    | None => []
                    end |},
     bool_decide (k = length chunks)).
Proof.
  revert w held. induction starts as [|i starts IH]; intros w held Hheld; simpl.
  - rewrite app_nil_r, !app_nil_r, insert_id by done. by destruct w.
  - rewrite Hheld. destruct (accepts _ _ _ _) eqn:Hacc.
    + rewrite (IH _ (held ++ take n (drop i data))) by (simpl; apply lookup_insert_eq).
      simpl. rewrite insert_insert_eq, <- !app_assoc. simpl.
      f_equal. apply bool_decide_ext. lia.
    + simpl. rewrite !app_nil_r, insert_id by done. done.
Qed.

(** C8: [insert_data] cuts the rows into consecutive batches of at
    most 1000 rows, inserts and commits them one after the other, and
    stops at the first batch the store refuses: the batches before it
    stay committed, no later batch is attempted, the connection is
    closed and the run exits with status 1. *)
Theorem insert_data_batches (engine : Engine) (df : Table) (table_name : string)
    (w : World) (held : list sql_row) :
  db w !! table_name = Some held →
  let data := map to_sql_row (t_data df) in
  let sql := insert_sql table_name (t_columns df) in
  let chunks := batches 1000 data in
  let k := accepted_batches engine table_name held chunks in
  let w' := (insert_data engine df table_name 1000 w).1 in
  concat chunks = data
  ∧ Forall (λ c, 0 < length c ≤ 1000)%nat chunks
  ∧ (∀ i c, (i < k)%nat → chunks !! i = Some c →
       accepts engine table_name (held ++ concat (take i chunks)) c = true)
  ∧ (∀ c, chunks !! k = Some c →
       accepts engine table_name (held ++ concat (take k chunks)) c = false)
  ∧ db w' = <[table_name := held ++ concat (take k chunks)]> (db w)
  ∧ trace w' = trace w
      ++ flat_map (λ c, [Executemany sql c; Commit]) (take k chunks)
      ++ match chunks !! k with
         | Some c => [ExecutemanyRaised sql c]
         | None => []
         end
      ++ [Close]
  ∧ (insert_data engine df table_name 1000 w).2
    = if bool_decide (k = length chunks) then Ok () else Fail (SystemExit 1).
Proof.
  intros Hheld data sql chunks k w'.
  split; [by apply concat_batches; lia|].
  split; [by apply batches_sizes; lia|].
  destruct (accepted_batches_spec engine table_name held chunks) as [Hacc Hrej].
  split; [done|]. split; [done|].
  subst w'. unfold insert_data. fold data sql.
  destruct (decide (1000%nat = 0%nat)) as [?|_]; [lia|].
  rewrite (insert_chunks_spec _ _ _ _ _ _ _ held Hheld).
  fold (batches 1000 data). fold chunks. fold k.
  destruct (bool_decide (k = length chunks)); cbn; rewrite <- !app_assoc; done.
Qed.

Lemma insert_data_batches_witness :
  let w := {| db := {[ "Dim_ShipMode" := [] ]}; trace := [] |} in
  let r := insert_data small_store wide_table "Dim_ShipMode" 1000 w in
  r.2 = Fail (SystemExit 1)
  ∧ length <$> (db r.1 !! "Dim_ShipMode") = Some 1000%nat.
Proof.
  intros w r.
  destruct (insert_data_batches small_store wide_table "Dim_ShipMode" w [] eq_refl)
    as (_ & _ & _ & _ & Hdb & _ & Hr).
  split.
  - subst r. rewrite Hr. vm_compute. reflexivity.
  - subst r. rewrite Hdb, lookup_insert_eq. vm_compute. reflexivity.
Defined.

(** ** Determinism *)

Lemma same_tables_lookup (w w' : World) :
  same_tables w w' ↔ ∀ t, t ∈ output_tables → db w !! t = db w' !! t.
Proof.
  unfold same_tables, table_contents. split.
  - intros H t Ht.
    assert (Hmap : ∀ t, t ∈ output_tables → (λ t, db w !! t) t = (λ t, db w' !! t) t).
    { revert H. generalize output_tables. intros l. induction l as [|x l IH]; intros H u Hu.
      - inversion Hu.
      - simpl in H. injection H as H1 H2. apply elem_of_cons in Hu as [->|Hu]; [done|].
        by apply IH. }
    by apply Hmap.
  - intros H. apply map_ext_in. intros t Ht. apply H. by apply list_elem_of_In.
Qed.

Lemma same_tables_emit evs evs' w w' :
  same_tables w w' → same_tables (emit evs w) (emit evs' w').
Proof. done. Qed.

Lemma table_determined_ret {A} (a : A) : table_determined (mret a).
Proof. intros w w' H. done. Qed.

Lemma table_determined_bind {A B} (m : M A) (f : A → M B) :
  table_determined m → (∀ a, table_determined (f a)) → table_determined (m ≫= f).
Proof.
  intros Hm Hf w w' H. destruct (Hm w w' H) as [Hr Hw].
  unfold mbind, M_bind.
  destruct (m w) as [w1 [a|e]], (m w') as [w1' [a'|e']]; simpl in *; try done.
  - injection Hr as <-. by apply Hf.
  - by injection Hr as <-.
Qed.

Lemma table_determined_lift {A} (r : result A) : table_determined (lift r).
Proof. intros w w' H. done. Qed.

Lemma table_determined_assert (b : bool) : table_determined (py_assert b).
Proof. intros w w' H. by destruct b. Qed.

(** Loading an output table reads and writes that table only. *)
Lemma insert_chunks_determined engine sql table_name data n starts w w' :
  table_name ∈ output_tables →
  same_tables w w' →
  (insert_chunks engine sql table_name data n starts w).2
  = (insert_chunks engine sql table_name data n starts w').2
  ∧ same_tables (insert_chunks engine sql table_name data n starts w).1
                (insert_chunks engine sql table_name data n starts w').1.
Proof.
  intros Ht. revert w w'. induction starts as [|i starts IH]; intros w w' H; simpl.
  - done.
  - pose proof (proj1 (same_tables_lookup w w') H table_name Ht) as Hl.
    rewrite <- Hl. destruct (db w !! table_name) as [held|]; [|done].
    destruct (accepts _ _ _ _); [|done].
    apply IH. apply same_tables_lookup. intros t Hin. simpl.
    destruct (decide (table_name = t)) as [->|Hne].
    + by rewrite !lookup_insert_eq.
    + rewrite !lookup_insert_ne by done. by apply same_tables_lookup.
Qed.

Lemma insert_data_determined engine df table_name n :
  table_name ∈ output_tables → table_determined (insert_data engine df table_name n).
Proof.
  intros Ht w w' H. unfold insert_data.
  destruct (decide (n = 0%nat)); [done|].
  destruct (insert_chunks_determined engine (insert_sql table_name (t_columns df))
              table_name (map to_sql_row (t_data df)) n
              (py_range (length (map to_sql_row (t_data df))) n) w w' Ht H) as [Hr Hw].
  destruct (insert_chunks _ _ _ _ _ _ w) as [w1 b1],
           (insert_chunks _ _ _ _ _ _ w') as [w1' b1'].
  simpl in *. subst b1'. by destruct b1.
Qed.

Lemma create_dimensions_determined df engine :
  table_determined (create_dimensions df engine).
Proof.
  unfold create_dimensions, check_and_load_dim_date, load_dim.
  repeat first
    [ apply table_determined_bind; [|intros ?]
    | apply table_determined_lift
    | apply table_determined_assert
    | apply table_determined_ret
    | apply insert_data_determined; set_solver ].
Qed.

Lemma load_face_sales_determined df ds dl engine :
  table_determined (load_face_sales df ds dl engine).
Proof.
  unfold load_face_sales.
  apply table_determined_bind; [apply table_determined_lift|intros ?].
  apply insert_data_determined. set_solver.
Qed.

Lemma initialize_schema_resets (w w' : World) :
  (initialize_schema w).2 = (initialize_schema w').2
  ∧ same_tables (initialize_schema w).1 (initialize_schema w').1.
Proof.
  split; [done|]. apply same_tables_lookup. intros t Ht. simpl.
  repeat (apply elem_of_cons in Ht as [->|Ht]; [by simplify_map_eq|]).
  inversion Ht.
Qed.

Lemma bind_apply {A B} (m : M A) (f : A → M B) (w : World) :
  (m ≫= f) w
  = match m w with
    | (w', Ok a) => f a w'
    | (w', Fail e) => (w', Fail e)
    end.
Proof. done. Qed.

Lemma pipeline_determined (engine : Engine) (file : option (Frame SourceRow)) :
  table_determined
    (df ← extract_data file;
     let df_transformed := transform_data df in
     dims ← create_dimensions df_transformed engine;
     load_face_sales df_transformed dims.1 dims.2 engine).
Proof.
  apply table_determined_bind.
  - destruct file; [apply table_determined_ret|]. intros ???. done.
  - intros df. cbv zeta. apply table_determined_bind.
    + apply create_dimensions_determined.
    + intros dims. apply load_face_sales_determined.
Qed.

Lemma main_same_tables (engine : Engine) (file : option (Frame SourceRow)) (w w' : World) :
  (main engine file w).2 = (main engine file w').2
  ∧ same_tables (main engine file w).1 (main engine file w').1.
Proof.
  unfold main. rewrite !bind_apply.
  destruct (initialize_schema_resets w w') as [Hr Hs].
  destruct (initialize_schema w) as [v [[]|e]], (initialize_schema w') as [v' [[]|e']];
    simpl in Hr, Hs; try done.
  by apply pipeline_determined.
Qed.

(** C1: the outcome of [main] and the rows it leaves in the six output
    tables depend on the engine and the input file only, not on what
    the store held before; so a second run over the store the first run
    left gives the same tables again. *)
Theorem main_deterministic (engine : Engine) (file : option (Frame SourceRow))
    (w1 w2 : World) :
  let first := main engine file w1 in
  let again := main engine file first.1 in
  ((main engine file w1).2 = (main engine file w2).2
   ∧ table_contents (main engine file w1).1 = table_contents (main engine file w2).1)
  ∧ (again.2 = first.2 ∧ table_contents again.1 = table_contents first.1).
Proof.
  intros first again. split; [apply main_same_tables|].
  apply main_same_tables.
Qed.

(** The sample file runs to the end: four dates (the sentinel and three
    days), one customer, one product, two ship modes, three locations
    and four facts. *)
Example main_sample_run :
  (main accept_all (Some sample_frame) empty_world).2 = Ok ()
  ∧ map (fmap length) (table_contents (main accept_all (Some sample_frame) empty_world).1)
    = map Some [4; 1; 1; 2; 3; 4]%nat.
Proof. by vm_compute. Qed.

(** ** The truncation step *)

Lemma nth_map_seq {A} (g : nat → A) (n j : nat) (d : A) :
  (j < n)%nat → nth j (map g (seq 0 n)) d = g j.
Proof.
  intros Hj. rewrite (nth_indep _ d (g 0%nat)) by (rewrite length_map, length_seq; lia).
  rewrite (map_nth g). f_equal. rewrite seq_nth; lia.
Qed.

Lemma truncate_strings_other_column (n j : nat) (l : list FeatureRow) :
  (j < n)%nat →
  other_column j (truncate_strings n l)
  = map (truncate_if (is_object (other_column j l))) (other_column j l).
Proof.
  intros Hj. unfold other_column at 1 3, truncate_strings.
  rewrite !map_map. apply map_ext. intros r. cbn [src others].
  by rewrite nth_map_seq.
Qed.

Lemma truncate_strings_named_columns (n : nat) (l : list FeatureRow) :
  map (λ f, map f (truncate_strings n l)) named_cell_columns
  = map (λ col, map (truncate_if (is_object col)) col)
        (map (λ f, map f l) named_cell_columns).
Proof.
  unfold named_cell_columns, truncate_strings. cbn [map].
  rewrite !map_map. reflexivity.
Qed.

(** The last step, column by column. *)
Lemma transform_data_cell_columns (raw : Frame SourceRow) :
  cell_columns (transform_data raw)
  = map (λ col, map (truncate_if (is_object col)) col)
        (cell_columns (before_truncation raw)).
Proof.
  unfold cell_columns, transform_data, before_truncation. cbn [rows columns].
  rewrite length_map, map_app, truncate_strings_named_columns.
  apply (f_equal (app _)).
  rewrite (map_map _ _ (seq 0 _)). apply map_ext_in. intros j Hj. apply in_seq in Hj.
  apply truncate_strings_other_column. lia.
Qed.




(** ** Surrogate keys *)


Lemma imap_fmap_snd {A B} (f : nat → A → B) (g : B → A) (l : list A) :
  (∀ i a, g (f i a) = a) → g <$> imap f l = l.
Proof.
  revert f. induction l as [|a l IH]; intros f Hg; [done|].
  simpl. rewrite Hg. f_equal. apply IH. intros. apply Hg.
Qed.






Lemma first_match_None {R K} `{EqDecision K} (right_on : R → K) (k : K) (right : list R) :
  first_match right_on k right = None ↔ ∀ r, r ∈ right → right_on r ≠ k.
Proof.
  unfold first_match. split.
  - intros Hnone r Hr Heq.
    assert (r ∈ List.filter (λ r, bool_decide (right_on r = k)) right) as Hin.
    { apply list_elem_of_In, filter_In. split; [by apply list_elem_of_In|].
      by apply bool_decide_eq_true. }
    destruct (List.filter _ right); [inversion Hin|done].
  - intros Hall. destruct (List.filter _ right) as [|r rs] eqn:Hf; [done|].
    assert (In r (List.filter (λ r, bool_decide (right_on r = k)) right)) as Hin
      by (rewrite Hf; by left).
    apply filter_In in Hin as [Hin Heq]. apply bool_decide_eq_true in Heq.
    apply list_elem_of_In in Hin. by apply Hall in Hin.
Qed.

Lemma build_fact_resolved df ds dl :
  build_fact df ds dl
  = match available_cols (columns df) with
    | [] => Fail (Uncaught IndexError)
    | _ => Ok (map (resolved_fact df ds dl)
                   (drop_duplicates_by (row_id ∘ src) (rows df)))
    end.
Proof.
  destruct (available_cols (columns df)) as [|c cs] eqn:Hav.
  - by apply build_fact_fail.
  - rewrite build_fact_ok by congruence. done.
Qed.

(** ** The fact table *)

(** C4: the fact rows have pairwise distinct RowIDs, every RowID of the
    batch is among them, and they are the projections of the rows of
    the batch at the first occurrence of each RowID, in the order of the
    batch; fact construction fails only for a source without any
    location column. *)
Theorem fact_row_ids_distinct (df : Frame FeatureRow)
    (dim_shipmode : list Dim_ShipMode.row) (dim_location : list Dim_Location.row) :
  match build_fact df dim_shipmode dim_location with
  | Ok facts =>
    NoDup (map Fact_Sales.RowID facts)
    ∧ (∀ r, r ∈ rows df → row_id (src r) ∈ map Fact_Sales.RowID facts)
    ∧ ∃ kept idx,
        first_occurrences (row_id ∘ src) (rows df) kept idx
        ∧ facts = map (resolved_fact df dim_shipmode dim_location) kept
        ∧ map Fact_Sales.RowID facts = map (row_id ∘ src) kept
  | Fail e => e = Uncaught IndexError ∧ available_cols (columns df) = []
  end.
Proof.
  rewrite build_fact_resolved.
  destruct (available_cols (columns df)) as [|c cs]; [done|].
  assert (Hids : map Fact_Sales.RowID
            (map (resolved_fact df dim_shipmode dim_location)
               (drop_duplicates_by (row_id ∘ src) (rows df)))
          = (row_id ∘ src) <$> drop_duplicates_by (row_id ∘ src) (rows df)).
  { rewrite map_map. done. }
  split; [|split].
  - rewrite Hids. apply drop_duplicates_from_NoDup.
  - intros r Hr. rewrite Hids. apply drop_duplicates_from_keys.
    split; [|apply not_elem_of_nil]. apply list_elem_of_fmap. by exists r.
  - destruct (drop_duplicates_by_first (row_id ∘ src) (rows df)) as [idx Hidx].
    exists (drop_duplicates_by (row_id ∘ src) (rows df)), idx. done.
Qed.

Lemma fact_row_ids_distinct_witness :
  let df := transform_data sample_frame in
  ∃ facts,
    build_fact df (build_dim_shipmode (rows df)) (build_dim_location df) = Ok facts
    ∧ map (row_id ∘ src) (rows df) = [CInt 1; CInt 2; CInt 2; CInt 3; CInt 4]
    ∧ map (λ f, (Fact_Sales.RowID f, Fact_Sales.Sales f)) facts
      = [ (CInt 1, 200%float); (CInt 2, 100%float); (CInt 3, 400%float);
          (CInt 4, 500%float) ]
    ∧ NoDup (map Fact_Sales.RowID facts).
Proof.
  intros df.
  pose proof (fact_row_ids_distinct df (build_dim_shipmode (rows df))
                (build_dim_location df)) as Hthm.
  destruct (build_fact df _ _) as [facts|e] eqn:Hbuild.
  - exists facts. destruct Hthm as (Hnodup & _).
    split; [done|]. split; [by vm_compute|]. split; [|done].
    revert Hbuild. vm_compute. by intros [= <-].
  - destruct Hthm as [_ Hav]. revert Hav. by vm_compute.
Defined.





(** ** The model on the spec's examples *)

Example normalize_column_examples :
  map normalize_column ["Order Date"; "Sub-Category"; "Postal.Code"; "Row ID"]
  = ["order_date"; "sub_category"; "postal_code"; "row_id"].
Proof. reflexivity. Qed.

Example calendar_examples :
  civil_from_days 0 = {| c_year := 1970; c_month := 1; c_day := 1 |}
  ∧ civil_from_days 19782 = {| c_year := 2024; c_month := 2; c_day := 29 |}
  ∧ strftime_Ymd 19723 = 20240101
  ∧ day_name 0 = "Thursday"
  ∧ Dim_Date.IsWeekend (date_row 19728) = Some true
  ∧ date_range 19723 19725 = [19723; 19724; 19725].
Proof. by vm_compute. Qed.

(** An order of 2024-01-01 shipped on 2024-01-05 took 4 days; a row
    without order date takes 0. *)
Example shipping_days_examples :
  map shipping_days (rows (transform_data sample_frame)) = [4; 4; 0; 0; 4].
Proof. by vm_compute. Qed.

(** A profit of 50 on sales of 200 is a margin of 25; sales of 0 give 0. *)
Example profit_margin_examples :
  profit_margin_of (sample_row 1 None "Same Day" 200 0 CNaN) = 25%float
  ∧ profit_margin_of (sample_row 1 None "Same Day" 0 0 CNaN) = 0%float.
Proof. by vm_compute. Qed.

Example quantile_examples :
  quantile_075 [5; 1; 4; 2; 3]%float = 4%float
  ∧ quantile_075 [1; 2; 3; 4]%float = 3.25%float
  ∧ quantile_075 [nan; 7]%float = 7%float
  ∧ PrimFloat.is_nan (quantile_075 []) = true.
Proof. by vm_compute. Qed.

(** Two rows of one ship mode give one Dim_ShipMode row, of ShipModeID
    1, which both fact rows reference. *)
Example shared_ship_mode :
  let df := transform_data
    {| columns := ["City"; "State"];
       rows := [ sample_row 1 (Some 19723) "Second Class" 200 0 (CStr "Austin");
                 sample_row 2 (Some 19724) "Second Class" 100 0 (CStr "Austin") ] |} in
  build_dim_shipmode (rows df)
  = [ {| Dim_ShipMode.ShipModeID := 1; Dim_ShipMode.ShipMode := CStr "Second Class" |} ]
  ∧ Dim_Location.table (map schema_name (available_cols (columns df)))
      (build_dim_location df)
    = {| t_columns := ["LocationID"; "City"; "State"];
         t_data := [ [VInt 1; VStr "Austin"; VStr "Texas"] ] |}
  ∧ (λ facts, map Fact_Sales.ShipModeID facts)
      <$> (match build_fact df (build_dim_shipmode (rows df)) (build_dim_location df) with
           | Ok facts => Some facts
           | Fail _ => None
           end)
    = Some [Some 1; Some 1].
Proof. by vm_compute. Qed.

Example insert_statement :
  insert_sql "Dim_ShipMode" Dim_ShipMode.names
  = "INSERT INTO Dim_ShipMode (ShipModeID,ShipMode) VALUES (?,?)"
  ∧ py_range 2500 1000 = [0; 1000; 2000]%nat
  ∧ map length (batches 1000 (replicate 2500 [])) = [1000; 1000; 500]%nat.
Proof. by vm_compute. Qed.

(** * Further properties *)

(** ** Column names and text *)






Lemma substring_length_le (n : nat) (s : string) :
  (String.length (String.substring 0 n s) ≤ n)%nat.
Proof.
  revert n. induction s as [|c s IH]; intros [|n]; simpl; try lia.
  specialize (IH n). lia.
Qed.

Lemma substring_short (n : nat) (s : string) :
  (String.length s ≤ n)%nat → String.substring 0 n s = s.
Proof.
  revert n. induction s as [|c s IH]; intros [|n]; simpl; try done; try lia.
  intros H. rewrite IH by lia. done.
Qed.

Lemma substring_prefix (n : nat) (s : string) :
  String.prefix (String.substring 0 n s) s = true.
Proof.
  revert n. induction s as [|c s IH]; intros [|n]; simpl; try done.
  destruct (ascii_dec c c); [apply IH|done].
Qed.











(** ** Text fits the schema *)

Lemma truncate_if_fits (b : bool) (s : string) :
  (String.length s ≤ 255)%nat → truncate_if b (CStr s) = CStr s.
Proof.
  intros Hs. destruct b; [|done]. unfold truncate_if, truncate_cell, str_slice.
  simpl. by rewrite substring_short.
Qed.

(** X5: after [transform_data] every cell of an object column is a text
    of at most 255 characters, and a text cell of at most 255 characters
    is left as it was by the last step, in whichever column it is. *)
Theorem text_cells_fit_255 (raw : Frame SourceRow) :
  let df := transform_data raw in
  (∀ col c, col ∈ object_columns df → c ∈ col →
     ∃ s, c = CStr s ∧ (String.length s ≤ 255)%nat)
  ∧ Forall2 (Forall2 (λ c c0,
       ∀ s0, c0 = CStr s0 → (String.length s0 ≤ 255)%nat → c = c0))
      (cell_columns df) (cell_columns (before_truncation raw)).
Proof.
  intros df. split.
  - intros col c Hcol Hc. unfold object_columns in Hcol.
    apply list_elem_of_In, filter_In in Hcol as [Hin Hobj].
    unfold df in Hin. rewrite transform_data_cell_columns in Hin.
    apply in_map_iff in Hin as (col0 & <- & _).
    destruct (is_object col0) eqn:Hobj0.
    + rewrite map_fmap in Hc. apply list_elem_of_fmap in Hc as (c0 & -> & _).
      eexists. split; [done|]. apply substring_length_le.
    + exfalso. revert Hobj. rewrite map_ext with (g := id) by done.
      rewrite map_id. congruence.
  - unfold df. rewrite transform_data_cell_columns, map_fmap.
    apply Forall2_fmap_l, Forall_Forall2_diag, Forall_forall. intros col0 _.
    simpl. rewrite map_fmap.
    apply Forall2_fmap_l, Forall_Forall2_diag, Forall_forall.
    intros c0 Hc0 s0 -> Hlen. by apply truncate_if_fits.
Qed.

(** ** The profit margin *)

Lemma float_is_nan_spec (x : float) :
  PrimFloat.is_nan x = true ↔ Prim2SF x = S754_nan.
Proof.
  unfold PrimFloat.is_nan. rewrite FloatAxioms.eqb_spec.
  destruct (Prim2SF x) as [[]|[]| |[] m e]; simpl; try (split; done).
  all: unfold SFeqb, SFcompare; simpl.
  all: rewrite Z.compare_refl, Pos.compare_cont_refl; split; done.
Qed.

Lemma float_is_inf_spec (x : float) :
  is_inf x = true ↔ ∃ s, Prim2SF x = S754_infinity s.
Proof.
  unfold is_inf. rewrite !FloatAxioms.eqb_spec.
  change (Prim2SF infinity) with (S754_infinity false).
  change (Prim2SF neg_infinity) with (S754_infinity true).
  destruct (Prim2SF x) as [[]|[]| |[] m e]; simpl; split;
    try done; try (by eexists); by intros [? ?].
Qed.

Lemma float_eqb_zero_spec (x : float) :
  PrimFloat.eqb x f_zero = true ↔ ∃ s, Prim2SF x = S754_zero s.
Proof.
  rewrite FloatAxioms.eqb_spec. change (Prim2SF f_zero) with (S754_zero false).
  destruct (Prim2SF x) as [[]|[]| |[] m e]; simpl; split;
    try done; try (by eexists); by intros [? ?].
Qed.

Lemma profit_margin_of_replaced (r : SourceRow) :
  let pm := PrimFloat.mul (PrimFloat.div (profit r) (sales r)) f_hundred in
  (PrimFloat.is_nan pm = true ∨ is_inf pm = true) → profit_margin_of r = f_zero.
Proof.
  intros pm H. unfold profit_margin_of. fold pm.
  destruct (is_inf pm); [done|]. destruct (PrimFloat.is_nan pm); [done|].
  by destruct H.
Qed.

Lemma hundred_SF : Prim2SF f_hundred = S754_finite false 7036874417766400 (-46).
Proof. by vm_compute. Qed.

Lemma mul_hundred_nan_inf (x : float) :
  (Prim2SF x = S754_nan ∨ ∃ s, Prim2SF x = S754_infinity s) →
  PrimFloat.is_nan (PrimFloat.mul x f_hundred) = true
  ∨ is_inf (PrimFloat.mul x f_hundred) = true.
Proof.
  intros [H|[s H]].
  - left. apply float_is_nan_spec. by rewrite FloatAxioms.mul_spec, H.
  - right. apply float_is_inf_spec. rewrite FloatAxioms.mul_spec, H, hundred_SF.
    by eexists.
Qed.

(** X3: the profit margin of every transformed row is a finite number,
    never NaN and never infinite; it is 0 when the sales amount is zero
    and when sales or profit is missing. *)
Theorem profit_margin_is_finite (raw : Frame SourceRow) (r : FeatureRow) :
  r ∈ rows (transform_data raw) →
  PrimFloat.is_nan (profit_margin r) = false
  ∧ is_inf (profit_margin r) = false
  ∧ (PrimFloat.eqb (sales (src r)) f_zero = true → profit_margin r = f_zero)
  ∧ (PrimFloat.is_nan (sales (src r)) = true → profit_margin r = f_zero)
  ∧ (PrimFloat.is_nan (profit (src r)) = true → profit_margin r = f_zero).
Proof.
  intros Hr. destruct (transform_data_row raw r Hr) as (s & _ & _ & _ & _ & _ & _ & _ & _ & -> & _).
  split_and!.
  - unfold profit_margin_of. set (pm := PrimFloat.mul _ _).
    destruct (is_inf pm); [done|].
    by destruct (PrimFloat.is_nan pm) eqn:E.
  - unfold profit_margin_of. set (pm := PrimFloat.mul _ _).
    destruct (is_inf pm) eqn:E; [done|].
    by destruct (PrimFloat.is_nan pm).
  - intros [z Hz]%float_eqb_zero_spec.
    apply profit_margin_of_replaced, mul_hundred_nan_inf.
    rewrite FloatAxioms.div_spec, Hz.
    destruct (Prim2SF (profit (src r))) as [[]|[]| |[] m e]; simpl;
      first [by left | right; by eexists].
  - intros Hn%float_is_nan_spec.
    apply profit_margin_of_replaced, mul_hundred_nan_inf. left.
    rewrite FloatAxioms.div_spec, Hn.
    by destruct (Prim2SF (profit (src r))) as [[]|[]| |[] m e].
  - intros Hn%float_is_nan_spec.
    apply profit_margin_of_replaced, mul_hundred_nan_inf. left.
    by rewrite FloatAxioms.div_spec, Hn.
Qed.

Lemma profit_margin_is_finite_witness :
  map profit_margin (rows (transform_data sample_frame))
  = [25%float; 50%float; 0x1.0aaaaaaaaaaaap+4%float; 12.5%float; 10%float]
  ∧ Forall (λ r, PrimFloat.is_nan (profit_margin r) = false
                 ∧ is_inf (profit_margin r) = false)
      (rows (transform_data sample_frame)).
Proof.
  split; [by vm_compute|]. apply Forall_forall. intros r Hr.
  destruct (profit_margin_is_finite sample_frame r Hr) as (? & ? & _). done.
Defined.

(** ** The date key *)






(** ** Dim_Customer and Dim_Product *)

Section TwoPasses.
Context {A K : Type} `{EqDecision A} `{EqDecision K}.

(** Dropping the rows that repeat a key makes a pass that drops the rows
    that repeat as a whole redundant. *)
Lemma drop_duplicates_from_twice (key : A → K) (seenK : list K) (seenA l : list A) :
  (∀ a, a ∈ seenA → key a ∈ seenK) →
  drop_duplicates_from key seenK (drop_duplicates_from id seenA l)
  = drop_duplicates_from key seenK l.
Proof.
  revert seenK seenA. induction l as [|x l IH]; intros seenK seenA Hseen; [done|].
  cbn [drop_duplicates_from]. unfold id at 1 2.
  destruct (bool_decide (x ∈ seenA)) eqn:Hx.
  - apply bool_decide_eq_true in Hx.
    rewrite (bool_decide_eq_true_2 (key x ∈ seenK)) by auto. by apply IH.
  - cbn [drop_duplicates_from]. destruct (bool_decide (key x ∈ seenK)) eqn:Hk.
    + apply bool_decide_eq_true in Hk. apply IH.
      intros a [->|Ha]%elem_of_cons; auto.
    + f_equal. apply IH. intros a [->|Ha]%elem_of_cons; [by left|right; auto].
Qed.

Lemma drop_duplicates_by_after_drop_duplicates (key : A → K) (l : list A) :
  drop_duplicates_by key (drop_duplicates l) = drop_duplicates_by key l.
Proof.
  unfold drop_duplicates, drop_duplicates_by. apply drop_duplicates_from_twice.
  by intros a ?%elem_of_nil.
Qed.
End TwoPasses.

Lemma drop_duplicates_by_keys {A K} `{EqDecision K} (key : A → K) (l : list A) (k : K) :
  k ∈ key <$> drop_duplicates_by key l ↔ k ∈ key <$> l.
Proof.
  unfold drop_duplicates_by. rewrite drop_duplicates_from_keys, elem_of_nil. tauto.
Qed.

Lemma drop_duplicates_elem {A} `{EqDecision A} (l : list A) (x : A) :
  x ∈ drop_duplicates l ↔ x ∈ l.
Proof.
  pose proof (drop_duplicates_by_keys id l x) as H.
  by rewrite !list_fmap_id in H.
Qed.

Lemma drop_duplicates_NoDup {A} `{EqDecision A} (l : list A) :
  NoDup (drop_duplicates l).
Proof.
  pose proof (drop_duplicates_from_NoDup id [] l) as H.
  by rewrite list_fmap_id in H.
Qed.

(** X10: Dim_Customer holds every customer id of the batch exactly once,
    with the name and segment of the first row that has it; the first
    [drop_duplicates()], on whole rows, changes nothing of the outcome.
    The same holds for Dim_Product and the product ids. *)
Theorem customer_and_product_keys_unique (df : list FeatureRow) :
  let customers :=
    map (λ r, {| Dim_Customer.CustomerID := customer_id (src r);
                 Dim_Customer.CustomerName := customer_name (src r);
                 Dim_Customer.Segment := segment (src r) |}) df in
  let products :=
    map (λ r, {| Dim_Product.ProductID := product_id (src r);
                 Dim_Product.ProductName := product_name (src r);
                 Dim_Product.Category := category (src r);
                 Dim_Product.SubCategory := sub_category (src r) |}) df in
  (NoDup (map Dim_Customer.CustomerID (build_dim_customer df))
   ∧ (∀ k, k ∈ map Dim_Customer.CustomerID (build_dim_customer df)
           ↔ k ∈ map (customer_id ∘ src) df)
   ∧ build_dim_customer df = drop_duplicates_by Dim_Customer.CustomerID customers
   ∧ ∃ idx, first_occurrences Dim_Customer.CustomerID customers
              (build_dim_customer df) idx)
  ∧ (NoDup (map Dim_Product.ProductID (build_dim_product df))
     ∧ (∀ k, k ∈ map Dim_Product.ProductID (build_dim_product df)
             ↔ k ∈ map (product_id ∘ src) df)
     ∧ build_dim_product df = drop_duplicates_by Dim_Product.ProductID products
     ∧ ∃ idx, first_occurrences Dim_Product.ProductID products
                (build_dim_product df) idx).
Proof.
  intros customers products. split.
  - assert (Heq : build_dim_customer df
                  = drop_duplicates_by Dim_Customer.CustomerID customers)
      by apply drop_duplicates_by_after_drop_duplicates.
    rewrite Heq. split_and!.
    + apply drop_duplicates_from_NoDup.
    + intros k. rewrite (map_fmap Dim_Customer.CustomerID), drop_duplicates_by_keys.
      unfold customers. rewrite (map_fmap _ df), <- list_fmap_compose. done.
    + done.
    + apply drop_duplicates_by_first.
  - assert (Heq : build_dim_product df
                  = drop_duplicates_by Dim_Product.ProductID products)
      by apply drop_duplicates_by_after_drop_duplicates.
    rewrite Heq. split_and!.
    + apply drop_duplicates_from_NoDup.
    + intros k. rewrite (map_fmap Dim_Product.ProductID), drop_duplicates_by_keys.
      unfold products. rewrite (map_fmap _ df), <- list_fmap_compose. done.
    + done.
    + apply drop_duplicates_by_first.
Qed.

(** ** Keys of the fact rows *)

Lemma first_match_Some {R K} `{EqDecision K} (right_on : R → K) (k : K) (right : list R) :
  k ∈ right_on <$> right →
  ∃ r, first_match right_on k right = Some r ∧ r ∈ right ∧ right_on r = k.
Proof.
  intros Hk. destruct (first_match right_on k right) as [r|] eqn:Hm.
  - exists r. split; [done|]. unfold first_match in Hm.
    assert (In r (List.filter (λ r, bool_decide (right_on r = k)) right)) as Hin.
    { destruct (List.filter _ right) as [|r' rs]; [done|].
      injection Hm as ->. by left. }
    apply filter_In in Hin as [Hin Heq]. apply bool_decide_eq_true in Heq.
    split; [by apply list_elem_of_In|done].
  - exfalso. apply list_elem_of_fmap in Hk as (r & -> & Hr).
    by apply (proj1 (first_match_None right_on _ right) Hm r).
Qed.

Lemma build_dim_shipmode_modes (df : list FeatureRow) :
  Dim_ShipMode.ShipMode <$> build_dim_shipmode df
  = drop_duplicates (map (ship_mode ∘ src) df).
Proof. unfold build_dim_shipmode. by rewrite imap_fmap_snd. Qed.

Lemma build_dim_location_keys (df : Frame FeatureRow) :
  Dim_Location.key <$> build_dim_location df = distinct_locations df.
Proof. unfold build_dim_location. by rewrite imap_fmap_snd. Qed.

Lemma distinct_locations_elem (df : Frame FeatureRow) (k : list cell) :
  k ∈ distinct_locations df ↔ k ∈ map (location_key (columns df) ∘ src) (rows df).
Proof.
  unfold distinct_locations. destruct (available_cols (columns df)); [done|].
  apply drop_duplicates_elem.
Qed.

Lemma build_dim_shipmode_ids (df : list FeatureRow) (d : Dim_ShipMode.row) :
  d ∈ build_dim_shipmode df →
  1 ≤ Dim_ShipMode.ShipModeID d ≤ Z.of_nat (length (build_dim_shipmode df)).
Proof.
  intros [i Hi]%list_elem_of_lookup. pose proof (lookup_lt_Some _ _ _ Hi) as Hlt.
  unfold build_dim_shipmode in Hi.
  apply list_lookup_imap_Some in Hi as (a & _ & ->). simpl. lia.
Qed.

Lemma build_dim_location_ids (df : Frame FeatureRow) (d : Dim_Location.row) :
  d ∈ build_dim_location df →
  1 ≤ Dim_Location.LocationID d ≤ Z.of_nat (length (build_dim_location df)).
Proof.
  intros [i Hi]%list_elem_of_lookup. pose proof (lookup_lt_Some _ _ _ Hi) as Hlt.
  unfold build_dim_location in Hi.
  apply list_lookup_imap_Some in Hi as (a & _ & ->). simpl. lia.
Qed.

Lemma dimension_keys_unique (df : Frame FeatureRow) :
  available_cols (columns df) ≠ [] →
  NoDup (map Dim_ShipMode.ShipMode (build_dim_shipmode (rows df)))
  ∧ NoDup (map Dim_Location.key (build_dim_location df)).
Proof.
  intros Hav. split.
  - rewrite (map_fmap Dim_ShipMode.ShipMode), build_dim_shipmode_modes.
    apply drop_duplicates_NoDup.
  - rewrite (map_fmap Dim_Location.key), build_dim_location_keys. unfold distinct_locations.
    destruct (available_cols (columns df)); [done|]. apply drop_duplicates_NoDup.
Qed.

(** X12: when the source has a location column, the fact rows built with
    the dimensions of the same batch have no null key: every fact row's
    CustomerID and ProductID are keys of Dim_Customer and Dim_Product,
    its ShipModeID is the id of the Dim_ShipMode row that holds its ship
    mode, and its LocationID the id of the Dim_Location row that holds
    its location tuple; both ids lie between 1 and the number of rows of
    their dimension, and no ship mode and no location tuple is held by
    two rows of its dimension. *)
Theorem fact_keys_reference_dimensions (df : Frame FeatureRow) :
  available_cols (columns df) ≠ [] →
  let dim_shipmode := build_dim_shipmode (rows df) in
  let dim_location := build_dim_location df in
  ∃ facts,
    build_fact df dim_shipmode dim_location = Ok facts
    ∧ Forall2 (λ f r,
        Fact_Sales.CustomerID f
          ∈ map Dim_Customer.CustomerID (build_dim_customer (rows df))
        ∧ Fact_Sales.ProductID f
          ∈ map Dim_Product.ProductID (build_dim_product (rows df))
        ∧ (∃ m, Fact_Sales.ShipModeID f = Some (Dim_ShipMode.ShipModeID m)
              ∧ m ∈ dim_shipmode
              ∧ Dim_ShipMode.ShipMode m = ship_mode (src r)
              ∧ 1 ≤ Dim_ShipMode.ShipModeID m ≤ Z.of_nat (length dim_shipmode))
        ∧ (∃ l, Fact_Sales.LocationID f = Some (Dim_Location.LocationID l)
              ∧ l ∈ dim_location
              ∧ Dim_Location.key l = location_key (columns df) (src r)
              ∧ 1 ≤ Dim_Location.LocationID l ≤ Z.of_nat (length dim_location)))
      facts (drop_duplicates_by (row_id ∘ src) (rows df))
    ∧ NoDup (map Dim_ShipMode.ShipMode dim_shipmode)
    ∧ NoDup (map Dim_Location.key dim_location).
Proof.
  intros Hav dim_shipmode dim_location. eexists. split; [by apply build_fact_ok|].
  split; [|by apply dimension_keys_unique].
  apply Forall2_fmap_l, Forall_Forall2_diag, Forall_forall.
  intros r Hr. apply drop_duplicates_from_elem in Hr as [Hr _].
  cbn [fact_row Fact_Sales.CustomerID Fact_Sales.ProductID Fact_Sales.ShipModeID
       Fact_Sales.LocationID fst snd].
  split_and!.
  - unfold build_dim_customer.
    rewrite drop_duplicates_by_after_drop_duplicates.
    rewrite (map_fmap Dim_Customer.CustomerID), drop_duplicates_by_keys.
    rewrite (map_fmap _ (rows df)), <- list_fmap_compose.
    apply list_elem_of_fmap. by exists r.
  - unfold build_dim_product.
    rewrite drop_duplicates_by_after_drop_duplicates.
    rewrite (map_fmap Dim_Product.ProductID), drop_duplicates_by_keys.
    rewrite (map_fmap _ (rows df)), <- list_fmap_compose.
    apply list_elem_of_fmap. by exists r.
  - destruct (first_match_Some Dim_ShipMode.ShipMode (ship_mode (src r)) dim_shipmode)
      as (m & -> & Hm & Hkey).
    { unfold dim_shipmode. rewrite build_dim_shipmode_modes, drop_duplicates_elem.
      apply list_elem_of_fmap. by exists r. }
    exists m. do 3 (split; [done|]). by apply build_dim_shipmode_ids.
  - destruct (first_match_Some Dim_Location.key (location_key (columns df) (src r))
                dim_location) as (l & -> & Hl & Hkey).
    { unfold dim_location. rewrite build_dim_location_keys, distinct_locations_elem.
      apply list_elem_of_fmap. by exists r. }
    exists l. do 3 (split; [done|]). by apply build_dim_location_ids.
Qed.

Lemma fact_keys_reference_dimensions_witness :
  let df := transform_data sample_frame in
  ∃ facts,
    build_fact df (build_dim_shipmode (rows df)) (build_dim_location df) = Ok facts
    ∧ map Fact_Sales.ShipModeID facts = [Some 1; Some 1; Some 2; Some 2]
    ∧ map Fact_Sales.LocationID facts = [Some 1; Some 2; Some 3; Some 3].
Proof.
  intros df.
  destruct (fact_keys_reference_dimensions df) as (facts & Hbuild & _);
    [by vm_compute|].
  exists facts. split; [done|].
  revert Hbuild. vm_compute. by intros [= <-].
Defined.

(** ** The joins add no rows *)

Lemma filter_unique_key {R K} `{EqDecision K} (right_on : R → K) (k : K) (right : list R) :
  NoDup (right_on <$> right) →
  (length (List.filter (λ r, bool_decide (right_on r = k)) right) ≤ 1)%nat.
Proof.
  induction right as [|r right IH]; [simpl; lia|].
  rewrite fmap_cons, NoDup_cons. intros [Hr Hnd]. simpl.
  case_bool_decide as Hk; [|by apply IH]. simpl.
  destruct (List.filter _ right) as [|r' rs] eqn:Hf; [simpl; lia|].
  exfalso. apply Hr.
  assert (In r' (List.filter (λ r, bool_decide (right_on r = k)) right)) as Hin
    by (rewrite Hf; by left).
  apply filter_In in Hin as [Hin Heq]. apply bool_decide_eq_true in Heq.
  rewrite Hk, <- Heq. apply list_elem_of_fmap. exists r'.
  split; [done|by apply list_elem_of_In].
Qed.

Lemma merge_left_unique_keys {L R K} `{EqDecision K} (left_on : L → K) (right_on : R → K)
    (left : list L) (right : list R) :
  NoDup (right_on <$> right) →
  merge_left left_on right_on left right
  = map (λ l, (l, first_match right_on (left_on l) right)) left.
Proof.
  intros Hnd. unfold merge_left, first_match.
  induction left as [|l left IH]; [done|]. cbn [flat_map]. rewrite IH.
  rewrite (map_cons _ l left). cbv beta.
  pose proof (filter_unique_key right_on (left_on l) right Hnd) as Hlen.
  destruct (List.filter _ right) as [|m [|m' ms]]; [done|done|simpl in Hlen; lia].
Qed.

(** X13: when the ship modes of Dim_ShipMode and the location tuples of
    Dim_Location are pairwise distinct, the two left merges of
    [load_face_sales] add no row: the merged frame has the rows of the
    batch, each once and in order. *)
Theorem merges_add_no_rows (df : Frame FeatureRow)
    (dim_shipmode : list Dim_ShipMode.row) (dim_location : list Dim_Location.row) :
  NoDup (map Dim_ShipMode.ShipMode dim_shipmode) →
  NoDup (map Dim_Location.key dim_location) →
  let fact :=
    merge_left (ship_mode ∘ src) Dim_ShipMode.ShipMode (rows df) dim_shipmode in
  let fact' : list joined :=
    merge_left (λ p, location_key (columns df) (src p.1)) Dim_Location.key
      fact dim_location in
  length fact = length (rows df)
  ∧ length fact' = length (rows df)
  ∧ map (λ j : joined, j.1.1) fact' = rows df.
Proof.
  intros Hs Hl fact fact'. unfold fact', fact.
  rewrite (merge_left_unique_keys _ _ _ dim_location) by done.
  rewrite (merge_left_unique_keys _ _ _ dim_shipmode) by done.
  rewrite !length_map, !map_map. simpl. by rewrite map_id.
Qed.

Lemma merges_add_no_rows_witness :
  let df := transform_data sample_frame in
  length (merge_left (λ p : FeatureRow * option Dim_ShipMode.row,
                        location_key (columns df) (src p.1)) Dim_Location.key
            (merge_left (ship_mode ∘ src) Dim_ShipMode.ShipMode (rows df)
               (build_dim_shipmode (rows df)))
            (build_dim_location df)) = 5%nat.
Proof.
  intros df.
  assert (Hs : NoDup (map Dim_ShipMode.ShipMode (build_dim_shipmode (rows df))))
    by (apply (bool_decide_unpack _); by vm_compute).
  assert (Hl : NoDup (map Dim_Location.key (build_dim_location df)))
    by (apply (bool_decide_unpack _); by vm_compute).
  destruct (merges_add_no_rows df _ _ Hs Hl) as (_ & Hlen & _).
  etransitivity; [exact Hlen|by vm_compute].
Defined.

(** ** Rows and columns *)



(** ** Loading tables one after the other *)

Lemma insert_chunks_other engine sql table_name data n starts w t :
  t ≠ table_name →
  db (insert_chunks engine sql table_name data n starts w).1 !! t = db w !! t.
Proof.
  intros Ht. revert w. induction starts as [|i starts IH]; intros w; simpl; [done|].
  destruct (db w !! table_name) as [held|]; [|done].
  destruct (accepts _ _ _ _); [|done].
  rewrite IH. simpl. by rewrite lookup_insert_ne.
Qed.

Lemma insert_data_other engine df table_name n w t :
  t ≠ table_name →
  db (insert_data engine df table_name n w).1 !! t = db w !! t.
Proof.
  intros Ht. unfold insert_data. destruct (decide (n = 0%nat)); [done|].
  pose proof (insert_chunks_other engine (insert_sql table_name (t_columns df))
                table_name (map to_sql_row (t_data df)) n
                (py_range (length (map to_sql_row (t_data df))) n) w t Ht) as H.
  destruct (insert_chunks _ _ _ _ _ _ w) as [w1 []]; done.
Qed.

Lemma take_batches (data : list sql_row) (n k : nat) :
  (0 < n)%nat → (k ≤ length (batches n data))%nat →
  concat (take k (batches n data)) = take (k * n) data.
Proof.
  intros Hn Hk. unfold batches, py_range in *.
  rewrite !length_map, length_seq in Hk.
  rewrite <- !fmap_take, take_seq, Nat.min_l by done.
  apply concat_batches_prefix.
Qed.

(** A load ends well with the whole table appended, or in exit status 1
    with a part of it: whole batches, and fewer rows than the table
    has. *)
Lemma insert_data_outcome engine df table_name w held :
  db w !! table_name = Some held →
  let r := insert_data engine df table_name 1000 w in
  (r.2 = Ok () ∧ db r.1 !! table_name = Some (held ++ table_rows df))
  ∨ (r.2 = Fail (SystemExit 1)
     ∧ ∃ k : nat, (k * 1000 < length (table_rows df))%nat
         ∧ db r.1 !! table_name = Some (held ++ take (k * 1000) (table_rows df))).
Proof.
  intros Hheld r. subst r. unfold insert_data, table_rows.
  destruct (decide (1000%nat = 0%nat)) as [?|_]; [lia|].
  rewrite (insert_chunks_spec _ _ _ _ _ _ _ held Hheld).
  fold (batches 1000 (map to_sql_row (t_data df))).
  set (data := map to_sql_row (t_data df)).
  set (k := accepted_batches engine table_name held (batches 1000 data)).
  pose proof (accepted_batches_le engine table_name held (batches 1000 data)) as Hle.
  fold k in Hle. case_bool_decide as Hk.
  - left. split; [done|]. cbn [fst db emit]. rewrite lookup_insert_eq, Hk.
    by rewrite firstn_all, concat_batches by lia.
  - right. split; [done|]. exists k. cbn [fst db emit].
    rewrite lookup_insert_eq, take_batches by lia. split; [|done].
    assert (k < length (batches 1000 data))%nat as Hlt by lia.
    unfold batches, py_range in Hlt. rewrite !length_map, length_seq in Hlt.
    pose proof (Nat.div_mod (length data + 1000 - 1) 1000 ltac:(lia)) as Hd.
    pose proof (Nat.mod_upper_bound (length data + 1000 - 1) 1000 ltac:(lia)) as Hm.
    nia.
Qed.

Lemma load_tables_cons engine table_name t tables w :
  load_tables engine ((table_name, t) :: tables) w
  = match insert_data engine t table_name 1000 w with
    | (w', Ok _) => load_tables engine tables w'
    | (w', Fail e) => (w', Fail e)
    end.
Proof. done. Qed.

(** The tables are loaded in order, each into its own table: after a
    good end all are there; after a failure, which is exit status 1,
    the tables before the failing one are there, the failing one holds
    a part, and those after it are as they were. *)
Lemma load_tables_spec engine tables w :
  NoDup tables.*1 →
  (∀ nt, nt ∈ tables → empty_table w nt.1) →
  let r := load_tables engine tables w in
  (∀ t, t ∉ tables.*1 → db r.1 !! t = db w !! t)
  ∧ match r.2 with
    | Ok _ => Forall (loaded r.1) tables
    | Fail e =>
      e = SystemExit 1
      ∧ ∃ before nt after (k : nat),
          tables = before ++ nt :: after
          ∧ Forall (loaded r.1) before
          ∧ (k * 1000 < length (table_rows nt.2))%nat
          ∧ db r.1 !! nt.1 = Some (take (k * 1000) (table_rows nt.2))
          ∧ Forall (λ nt', empty_table r.1 nt'.1) after
    end.
Proof.
  revert w. induction tables as [|[name t] tables IH]; intros w Hnd Hempty r.
  { split; [done|]. subst r. simpl. constructor. }
  rewrite fmap_cons in Hnd. apply NoDup_cons in Hnd as [Hname Hnd]. simpl in Hname.
  subst r. rewrite load_tables_cons.
  pose proof (Hempty (name, t) ltac:(by left)) as Hheld.
  pose proof (insert_data_outcome engine t name w [] Hheld) as Hout.
  pose proof (λ u, insert_data_other engine t name 1000 w u) as Hother.
  destruct (insert_data engine t name 1000 w) as [w1 res]. cbn [fst snd] in *.
  destruct Hout as [[-> Hdb]|[-> (k & Hk & Hdb)]].
  - destruct (IH w1 Hnd) as [IHother IHres].
    { intros nt Hnt. unfold empty_table. rewrite Hother.
      - apply Hempty. by right.
      - intros Heq. apply Hname. rewrite <- Heq. apply list_elem_of_fmap.
        by exists nt. }
    split.
    + intros u Hu. rewrite fmap_cons, not_elem_of_cons in Hu. destruct Hu as [Hu1 Hu2].
      rewrite IHother by done. by apply Hother.
    + destruct (load_tables engine tables w1) as [w2 [[]|e]]; cbn [fst snd] in *.
      * constructor; [|done]. unfold loaded. cbn [fst snd].
        rewrite IHother by done. done.
      * destruct IHres as (-> & before & nt & after & k & -> & Hb & Hk & Hnt & Ha).
        split; [done|]. exists ((name, t) :: before), nt, after, k.
        split_and!; try done. constructor; [|done].
        unfold loaded. cbn [fst snd]. rewrite IHother by done. done.
  - cbn [fst snd]. split.
    + intros u Hu. rewrite fmap_cons, not_elem_of_cons in Hu. destruct Hu as [Hu1 Hu2].
      by apply Hother.
    + split; [done|]. exists [], (name, t), tables, k. split_and!; try done.
      apply Forall_forall. intros nt Hnt. unfold empty_table. rewrite Hother.
      * apply Hempty. by right.
      * intros Heq. apply Hname. rewrite <- Heq. apply list_elem_of_fmap.
        by exists nt.
Qed.


(** ** main, step by step *)

Lemma build_dim_date_unique (df : list FeatureRow) (dim_date : list Dim_Date.row) :
  build_dim_date df = Ok dim_date →
  is_unique (map Dim_Date.DateKey dim_date) = true.
Proof.
  intros (lo & hi & _ & _ & ->)%build_dim_date_Ok.
  apply is_unique_NoDup. apply NoDup_date_keys.
Qed.

Lemma initialize_schema_empty (w : World) (t : string) :
  t ∈ output_tables → empty_table (initialize_schema w).1 t.
Proof.
  intros Ht. unfold empty_table. simpl.
  repeat (apply elem_of_cons in Ht as [->|Ht]; [by simplify_map_eq|]).
  inversion Ht.
Qed.

Lemma create_dimensions_load_tables (df : Frame FeatureRow) engine w :
  create_dimensions df engine w
  = match build_dim_date (rows df) with
    | Fail e => (w, Fail e)
    | Ok dim_date =>
      match load_tables engine (dimension_tables df dim_date) w with
      | (w', Ok _) => (w', Ok (build_dim_shipmode (rows df), build_dim_location df))
      | (w', Fail e) => (w', Fail e)
      end
    end.
Proof.
  unfold create_dimensions, check_and_load_dim_date, load_dim.
  rewrite bind_apply. unfold lift at 1.
  destruct (build_dim_date (rows df)) as [dim_date|e] eqn:Hdate; [|done].
  rewrite (build_dim_date_unique _ _ Hdate).
  unfold dimension_tables. rewrite !load_tables_cons.
  unfold py_assert. rewrite !bind_apply. unfold mret at 1, M_ret at 1.
  repeat (rewrite ?bind_apply, ?load_tables_cons;
          destruct (insert_data engine _ _ 1000 _) as [? [[]|?]]; [|done]).
  done.
Qed.

Lemma main_unfold engine (raw : Frame SourceRow) w :
  main engine (Some raw) w
  = let w0 := (initialize_schema w).1 in
    let df := transform_data raw in
    match build_dim_date (rows df) with
    | Fail e => (w0, Fail e)
    | Ok dim_date =>
      match load_tables engine (dimension_tables df dim_date) w0 with
      | (w1, Fail e) => (w1, Fail e)
      | (w1, Ok _) =>
        match build_fact df (build_dim_shipmode (rows df)) (build_dim_location df) with
        | Fail e => (w1, Fail e)
        | Ok facts => insert_data engine (Fact_Sales.table facts) "Fact_Sales" 1000 w1
        end
      end
    end.
Proof.
  unfold main. rewrite bind_apply.
  change (initialize_schema w) with ((initialize_schema w).1, @Ok () ()).
  cbv zeta. cbn [extract_data]. rewrite bind_apply. unfold mret at 1, M_ret at 1.
  rewrite bind_apply, create_dimensions_load_tables.
  destruct (build_dim_date _) as [dim_date|e]; [|done].
  destruct (load_tables engine _ _) as [w1 [[]|e]]; [|done].
  cbn [fst snd]. unfold load_face_sales. rewrite bind_apply. unfold lift.
  by destruct (build_fact _ _ _).
Qed.

Lemma main_no_file engine w :
  main engine None w = ((initialize_schema w).1, Fail (SystemExit 1)).
Proof. done. Qed.




Lemma load_tables_app engine tables tables' w :
  load_tables engine (tables ++ tables') w
  = match load_tables engine tables w with
    | (w', Ok _) => load_tables engine tables' w'
    | (w', Fail e) => (w', Fail e)
    end.
Proof.
  revert w. induction tables as [|[name t] tables IH]; intros w; [done|].
  rewrite <- app_comm_cons, !load_tables_cons.
  destruct (insert_data engine t name 1000 w) as [w1 [[]|e]]; [apply IH|done].
Qed.

Lemma load_tables_single engine nt w :
  load_tables engine [nt] w = insert_data engine nt.2 nt.1 1000 w.
Proof.
  destruct nt as [name t]. rewrite load_tables_cons. cbn [fst snd].
  by destruct (insert_data engine t name 1000 w) as [w1 [[]|e]].
Qed.

(** [main] on a file that exists: the six loads in a row, when both
    the date dimension and the fact rows can be built. *)
Lemma main_load_tables engine (raw : Frame SourceRow) w :
  main engine (Some raw) w
  = let w0 := (initialize_schema w).1 in
    let df := transform_data raw in
    match build_dim_date (rows df) with
    | Fail e => (w0, Fail e)
    | Ok dim_date =>
      match build_fact df (build_dim_shipmode (rows df)) (build_dim_location df) with
      | Ok facts =>
        load_tables engine (dimension_tables df dim_date ++ [fact_table facts]) w0
      | Fail e =>
        match load_tables engine (dimension_tables df dim_date) w0 with
        | (w1, Ok _) => (w1, Fail e)
        | (w1, Fail e') => (w1, Fail e')
        end
      end
    end.
Proof.
  rewrite main_unfold. cbv zeta.
  destruct (build_dim_date _) as [dim_date|e]; [|done].
  destruct (build_fact _ _ _) as [facts|e].
  - rewrite load_tables_app.
    destruct (load_tables engine (dimension_tables _ _) _) as [w1 [[]|e]]; [|done].
    by rewrite load_tables_single.
  - by destruct (load_tables engine (dimension_tables _ _) _) as [w1 [[]|e']].
Qed.

Lemma NoDup_six_tables (df : Frame FeatureRow) dim_date facts :
  NoDup (dimension_tables df dim_date ++ [fact_table facts]).*1.
Proof. apply (bool_decide_unpack _). by vm_compute. Qed.

Lemma six_tables_empty (df : Frame FeatureRow) dim_date facts w nt :
  nt ∈ dimension_tables df dim_date ++ [fact_table facts] →
  empty_table (initialize_schema w).1 nt.1.
Proof.
  intros Hnt. apply initialize_schema_empty.
  apply (list_elem_of_fmap_2 fst) in Hnt.
  change ((dimension_tables df dim_date ++ [fact_table facts]).*1)
    with output_tables in Hnt. done.
Qed.








(** X16: a run of [main] that ends normally had an input file, built the
    date dimension and the fact rows, and leaves each of the six tables
    holding exactly the rows built for it from the transformed batch. *)
Theorem successful_run_loads_all_tables (engine : Engine)
    (file : option (Frame SourceRow)) (w : World) :
  (main engine file w).2 = Ok () →
  ∃ raw dim_date facts,
    file = Some raw
    ∧ build_dim_date (rows (transform_data raw)) = Ok dim_date
    ∧ build_fact (transform_data raw)
        (build_dim_shipmode (rows (transform_data raw)))
        (build_dim_location (transform_data raw)) = Ok facts
    ∧ Forall (loaded (main engine file w).1)
        (dimension_tables (transform_data raw) dim_date ++ [fact_table facts]).
Proof.
  destruct file as [raw|]; [|by rewrite main_no_file].
  rewrite main_load_tables. cbv zeta.
  destruct (build_dim_date _) as [dim_date|e] eqn:Hdate; [|done].
  destruct (build_fact _ _ _) as [facts|e] eqn:Hfact.
  - intros Hok. exists raw, dim_date, facts. do 3 (split; [done|]).
    destruct (load_tables_spec engine
                (dimension_tables (transform_data raw) dim_date ++ [fact_table facts])
                (initialize_schema w).1) as [_ Hres].
    { apply NoDup_six_tables. }
    { apply six_tables_empty. }
    by rewrite Hok in Hres.
  - by destruct (load_tables engine _ _) as [w1 [[]|e']].
Qed.

Lemma successful_run_loads_all_tables_witness :
  ∃ facts,
    map Fact_Sales.RowID facts = [CInt 1; CInt 2; CInt 3; CInt 4]
    ∧ loaded (main accept_all (Some sample_frame) empty_world).1 (fact_table facts).
Proof.
  destruct (successful_run_loads_all_tables accept_all (Some sample_frame) empty_world)
    as (raw & dim_date & facts & [= <-] & _ & Hfact & Hall); [by vm_compute|].
  exists facts. split.
  - revert Hfact. vm_compute. by intros [= <-].
  - apply Forall_app in Hall as [_ Hall]. exact (Forall_inv Hall).
Defined.








(** ** transform_data keeps the rows *)



(** ** The calendar fields of Dim_Date *)






(** ** insert_data appends to one table *)






(** ** The columns of Dim_Location *)




(** ** execute_schema_script *)

Section SchemaScriptFacts.
Import SchemaScript.












End SchemaScriptFacts.
